(** * Dining philosophers (Week13/ChandyMisra/.../misra.py) and the
      [awaitme] adapter (Week04/hw/awaitme_saygin_efe_yildiz.py)

    The Python objects live in a heap ([World]); a [Fork] or a
    [Philosopher] is referred to by its position in that heap, so two
    philosophers that were given the same fork really share it.  Methods
    are programs ([Thr]) over primitive actions (lock acquire/release,
    attribute reads and writes, event wait/set, thread start/join).  One
    small-step function [step] gives the meaning of a program; [exec]
    iterates it for one thread alone, [cstep] interleaves the philosopher
    threads. *)

From Stdlib Require Import ZArith List Lia Bool.
From stdpp Require Import base list.
From Stdlib Require String Ascii DecimalString DecimalZ DecimalPos.

Set Implicit Arguments.

(** ** Data model *)

(** References are positions in the heap. *)
Abbreviation ref := nat (only parsing).

Inductive exn :=
| RuntimeError        (* Lock.release on an unlocked lock, Thread.start twice, ... *)
| IndexError          (* list index out of range *)
| ZeroDivisionError   (* [%] by zero *)
| InvalidReference.   (* a reference to no object: cannot arise in Python *)

(** [class Fork]: [self.index], [self.lock] (a [threading.Lock], which is
    either locked or not), [self.picked_up], [self.owner]. *)
Record Fork := mkFork {
  fk_index : Z;
  fk_lock : bool;
  fk_picked_up : bool;
  fk_owner : Z
}.

(** State of the [threading.Thread] a philosopher inherits from. *)
Inductive thread_state := NotStarted | Running | Finished.

(** [class Philosopher(threading.Thread)]. *)
Record Philosopher := mkPhilosopher {
  ph_index : Z;
  ph_left_fork : ref;
  ph_right_fork : ref;
  ph_spaghetti : Z;
  ph_eating : bool;
  ph_token : ref;
  ph_thread : thread_state
}.

(** The heap: forks, philosophers and [threading.Event] flags. *)
Record World := mkWorld {
  forks : list Fork;
  philosophers : list Philosopher;
  events : list bool
}.

Definition empty_world : World := mkWorld [] [] [].

(** [Fork.__init__] *)
Definition Fork_init (index : Z) : Fork :=
  {| fk_index := index; fk_lock := false; fk_picked_up := false; fk_owner := (-1)%Z |}.

(** [Philosopher.__init__] *)
Definition Philosopher_init (index : Z) (left_fork right_fork : ref)
    (spaghetti : Z) (token : ref) : Philosopher :=
  {| ph_index := index; ph_left_fork := left_fork; ph_right_fork := right_fork;
     ph_spaghetti := spaghetti; ph_eating := false; ph_token := token;
     ph_thread := NotStarted |}.

Definition set_forks (fs : list Fork) (w : World) : World :=
  {| forks := fs; philosophers := philosophers w; events := events w |}.
Definition set_philosophers (ps : list Philosopher) (w : World) : World :=
  {| forks := forks w; philosophers := ps; events := events w |}.
Definition set_events (es : list bool) (w : World) : World :=
  {| forks := forks w; philosophers := philosophers w; events := es |}.

Definition with_lock (b : bool) (f : Fork) : Fork :=
  {| fk_index := fk_index f; fk_lock := b; fk_picked_up := fk_picked_up f; fk_owner := fk_owner f |}.
Definition with_picked_up (b : bool) (f : Fork) : Fork :=
  {| fk_index := fk_index f; fk_lock := fk_lock f; fk_picked_up := b; fk_owner := fk_owner f |}.
Definition with_owner (o : Z) (f : Fork) : Fork :=
  {| fk_index := fk_index f; fk_lock := fk_lock f; fk_picked_up := fk_picked_up f; fk_owner := o |}.

Definition with_spaghetti (s : Z) (p : Philosopher) : Philosopher :=
  {| ph_index := ph_index p; ph_left_fork := ph_left_fork p; ph_right_fork := ph_right_fork p;
     ph_spaghetti := s; ph_eating := ph_eating p; ph_token := ph_token p;
     ph_thread := ph_thread p |}.
Definition with_eating (b : bool) (p : Philosopher) : Philosopher :=
  {| ph_index := ph_index p; ph_left_fork := ph_left_fork p; ph_right_fork := ph_right_fork p;
     ph_spaghetti := ph_spaghetti p; ph_eating := b; ph_token := ph_token p;
     ph_thread := ph_thread p |}.
Definition with_thread (s : thread_state) (p : Philosopher) : Philosopher :=
  {| ph_index := ph_index p; ph_left_fork := ph_left_fork p; ph_right_fork := ph_right_fork p;
     ph_spaghetti := ph_spaghetti p; ph_eating := ph_eating p; ph_token := ph_token p;
     ph_thread := s |}.

(** A fork as [pick_up] leaves it, and as [put_down] leaves it. *)
Definition fork_taken (owner : Z) (fk : Fork) : Fork :=
  mkFork (fk_index fk) true true owner.

Definition fork_put (fk : Fork) : Fork :=
  mkFork (fk_index fk) false false (-1)%Z.

(** The philosopher after one meal. *)
Definition fed (p : Philosopher) : Philosopher :=
  with_eating false (with_spaghetti (ph_spaghetti p - 1)%Z p).

(** ** Primitive actions *)

Inductive action : Type -> Type :=
| NewFork (index : Z) : action ref                       (* Fork(index) *)
| NewEvent : action ref                                  (* threading.Event() *)
| NewPhilosopher (index : Z) (l r : ref) (spaghetti : Z) (token : ref) : action ref
| LockAcquire (f : ref) : action bool                    (* f.lock.acquire() *)
| LockRelease (f : ref) : action unit                    (* f.lock.release() *)
| SetOwner (f : ref) (o : Z) : action unit               (* f.owner = o *)
| SetPickedUp (f : ref) (b : bool) : action unit         (* f.picked_up = b *)
| EventWait (t : ref) : action bool                      (* t.wait() *)
| EventSet (t : ref) : action unit                       (* t.set() *)
| Sleep : action unit                                    (* time.sleep(...) *)
| GetIndex (p : ref) : action Z                          (* p.index *)
| GetLeftFork (p : ref) : action ref                     (* p.left_fork *)
| GetRightFork (p : ref) : action ref                    (* p.right_fork *)
| GetToken (p : ref) : action ref                        (* p.token *)
| GetSpaghetti (p : ref) : action Z                      (* p.spaghetti *)
| SetSpaghetti (p : ref) (s : Z) : action unit           (* p.spaghetti = s *)
| SetEating (p : ref) (b : bool) : action unit           (* p.eating = b *)
| ThreadStart (p : ref) : action unit                    (* p.start() *)
| ThreadJoin (p : ref) : action unit                     (* p.join() *)
| Render : action unit.                                  (* table / animated_table: read-only *)

(** What an action leaves in the trace.  Attribute reads are silent. *)
Inductive event :=
| EvNewFork (f : ref) (index : Z)
| EvNewEvent (t : ref)
| EvNewPhilosopher (p : ref)
| EvAcquire (f : ref)
| EvRelease (f : ref)
| EvSetOwner (f : ref) (o : Z)
| EvSetPickedUp (f : ref) (b : bool)
| EvWait (t : ref)
| EvSet (t : ref)
| EvSleep
| EvSetSpaghetti (p : ref) (s : Z)
| EvSetEating (p : ref) (b : bool)
| EvStart (p : ref)
| EvJoin (p : ref)
| EvRender.

(** Result of one action: it completes with a value and a new world, it
    raises (every primitive raises before it has written anything, so no
    world is returned), or the calling thread cannot proceed yet. *)
Inductive ares (R : Type) :=
| AOk (ev : list event) (r : R) (w : World)
| ARaise (ev : list event) (e : exn)
| ABlock.
Arguments ARaise {R} ev e.
Arguments ABlock {R}.

Definition on_fork {R} (f : ref) (w : World) (k : Fork -> ares R) : ares R :=
  match forks w !! f with
  | Some fk => k fk
  | None => ARaise [] InvalidReference
  end.

Definition on_phil {R} (p : ref) (w : World) (k : Philosopher -> ares R) : ares R :=
  match philosophers w !! p with
  | Some ph => k ph
  | None => ARaise [] InvalidReference
  end.

Definition sem {R} (a : action R) (w : World) : ares R :=
  match a in action R return ares R with
  | NewFork i =>
      AOk [EvNewFork (length (forks w)) i] (length (forks w))
          (set_forks (forks w ++ [Fork_init i]) w)
  | NewEvent =>
      AOk [EvNewEvent (length (events w))] (length (events w))
          (set_events (events w ++ [false]) w)
  | NewPhilosopher i l r s t =>
      AOk [EvNewPhilosopher (length (philosophers w))] (length (philosophers w))
          (set_philosophers (philosophers w ++ [Philosopher_init i l r s t]) w)
  | LockAcquire f =>
      on_fork f w (fun fk =>
        if fk_lock fk then ABlock
        else AOk [EvAcquire f] true (set_forks (<[f := with_lock true fk]> (forks w)) w))
  | LockRelease f =>
      on_fork f w (fun fk =>
        if fk_lock fk
        then AOk [EvRelease f] tt (set_forks (<[f := with_lock false fk]> (forks w)) w)
        else ARaise [EvRelease f] RuntimeError)
  | SetOwner f o =>
      on_fork f w (fun fk =>
        AOk [EvSetOwner f o] tt (set_forks (<[f := with_owner o fk]> (forks w)) w))
  | SetPickedUp f b =>
      on_fork f w (fun fk =>
        AOk [EvSetPickedUp f b] tt (set_forks (<[f := with_picked_up b fk]> (forks w)) w))
  | EventWait t =>
      match events w !! t with
      | Some true => AOk [EvWait t] true w
      | Some false => ABlock
      | None => ARaise [] InvalidReference
      end
  | EventSet t =>
      match events w !! t with
      | Some _ => AOk [EvSet t] tt (set_events (<[t := true]> (events w)) w)
      | None => ARaise [] InvalidReference
      end
  | Sleep => AOk [EvSleep] tt w
  | GetIndex p => on_phil p w (fun ph => AOk [] (ph_index ph) w)
  | GetLeftFork p => on_phil p w (fun ph => AOk [] (ph_left_fork ph) w)
  | GetRightFork p => on_phil p w (fun ph => AOk [] (ph_right_fork ph) w)
  | GetToken p => on_phil p w (fun ph => AOk [] (ph_token ph) w)
  | GetSpaghetti p => on_phil p w (fun ph => AOk [] (ph_spaghetti ph) w)
  | SetSpaghetti p s =>
      on_phil p w (fun ph =>
        AOk [EvSetSpaghetti p s] tt
            (set_philosophers (<[p := with_spaghetti s ph]> (philosophers w)) w))
  | SetEating p b =>
      on_phil p w (fun ph =>
        AOk [EvSetEating p b] tt
            (set_philosophers (<[p := with_eating b ph]> (philosophers w)) w))
  | ThreadStart p =>
      on_phil p w (fun ph =>
        match ph_thread ph with
        | NotStarted =>
            AOk [EvStart p] tt
                (set_philosophers (<[p := with_thread Running ph]> (philosophers w)) w)
        | _ => ARaise [EvStart p] RuntimeError
        end)
  | ThreadJoin p =>
      on_phil p w (fun ph =>
        match ph_thread ph with
        | NotStarted => ARaise [EvJoin p] RuntimeError
        | Running => ABlock
        | Finished => AOk [EvJoin p] tt w
        end)
  | Render => AOk [EvRender] tt w
  end.

(** ** Programs *)

Inductive Thr : Type -> Type :=
| Ret {A} (a : A) : Thr A
| Throw {A} (e : exn) : Thr A
| Act {R} (a : action R) : Thr R
| Seq {A B} (t : Thr A) (k : A -> Thr B) : Thr B
| While (c : Thr bool) (b : Thr unit) : Thr unit.

Declare Scope thr_scope.
Delimit Scope thr_scope with thr.
Notation "x <- t ;; k" := (Seq t (fun x => k))
  (at level 100, t at next level, right associativity) : thr_scope.
Notation "t ;; k" := (Seq t (fun _ => k))
  (at level 100, right associativity) : thr_scope.
Open Scope thr_scope.

Inductive sres (A : Type) :=
| Stepped (ev : list event) (w : World) (t : Thr A)
| Blocked
| Returned (a : A)
| Thrown (e : exn).
Arguments Blocked {A}.
Arguments Thrown {A} e.

(** One step of a thread.  Sequencing and loop unfolding take a step of
    their own, which changes nothing in the world. *)
Fixpoint step {A} (t : Thr A) (w : World) : sres A :=
  match t in Thr A return sres A with
  | Ret a => Returned a
  | Throw e => Thrown e
  | Act a =>
      match sem a w with
      | AOk ev r w' => Stepped ev w' (Ret r)
      | ARaise ev e => Stepped ev w (Throw e)
      | ABlock => Blocked
      end
  | Seq t1 k =>
      match step t1 w with
      | Stepped ev w' t1' => Stepped ev w' (Seq t1' k)
      | Blocked => Blocked
      | Returned a => Stepped [] w (k a)
      | Thrown e => Stepped [] w (Throw e)
      end
  | While c b =>
      Stepped [] w (Seq c (fun v => if v then Seq b (fun _ => While c b) else Ret tt))
  end.

Inductive outcome (A : Type) :=
| Ok (a : A)
| Raise (e : exn)
| Block
| OutOfFuel.
Arguments Raise {A} e.
Arguments Block {A}.
Arguments OutOfFuel {A}.

Record result (A : Type) := mkResult {
  r_outcome : outcome A;
  r_world : World;
  r_trace : list event
}.

Definition emit {A} (ev : list event) (r : result A) : result A :=
  {| r_outcome := r_outcome r; r_world := r_world r; r_trace := ev ++ r_trace r |}.

(** A thread run on its own, for at most [fuel] steps. *)
Fixpoint exec {A} (fuel : nat) (t : Thr A) (w : World) : result A :=
  match fuel with
  | O => mkResult OutOfFuel w []
  | S n =>
      match step t w with
      | Returned a => mkResult (Ok a) w []
      | Thrown e => mkResult (Raise e) w []
      | Blocked => mkResult Block w []
      | Stepped ev w' t' => emit ev (exec n t' w')
      end
  end.

(** ** The interleaving of several threads *)

Record Config := mkConfig {
  c_world : World;
  c_threads : list (Thr unit)
}.

(** Thread [i] takes one step; [None] when it cannot (it is blocked, has
    ended, or does not exist). *)
Definition cstep (c : Config) (i : nat) : option Config :=
  match c_threads c !! i with
  | Some t =>
      match step t (c_world c) with
      | Stepped _ w' t' => Some (mkConfig w' (<[i := t']> (c_threads c)))
      | _ => None
      end
  | None => None
  end.

(** A schedule names the thread that moves at each step. *)
Fixpoint run_schedule (c : Config) (sched : list nat) : option Config :=
  match sched with
  | [] => Some c
  | i :: rest =>
      match cstep c i with
      | Some c' => run_schedule c' rest
      | None => None
      end
  end.

Inductive reachable (c : Config) : Config -> Prop :=
| reach_refl : reachable c c
| reach_step i c1 c2 : reachable c c1 -> cstep c1 i = Some c2 -> reachable c c2.

(** ** Python helpers used by [main] *)

(** [range(n)] *)
Definition range (n : Z) : list Z := map Z.of_nat (seq 0 (Z.to_nat n)).

(** [l[i]], with Python's negative indices. *)
Definition getitem {A} (l : list A) (i : Z) : Thr A :=
  let j := if (i <? 0)%Z then (Z.of_nat (length l) + i)%Z else i in
  if (j <? 0)%Z then Throw IndexError
  else match l !! Z.to_nat j with
       | Some x => Ret x
       | None => Throw IndexError
       end.

(** [a % b] *)
Definition py_mod (a b : Z) : Thr Z :=
  if (b =? 0)%Z then Throw ZeroDivisionError else Ret (a mod b)%Z.

(** [[f(x) for x in l]] *)
Fixpoint comprehension {A B} (f : A -> Thr B) (l : list A) : Thr (list B) :=
  match l with
  | [] => Ret []
  | x :: xs => y <- f x ;; ys <- comprehension f xs ;; Ret (y :: ys)
  end.

(** [for x in l: f(x)] *)
Fixpoint for_each {A} (l : list A) (f : A -> Thr unit) : Thr unit :=
  match l with
  | [] => Ret tt
  | x :: xs => f x ;; for_each xs f
  end.

(** ** class Fork *)

(** [Fork.__enter__]: [return self]. *)
Definition Fork_enter (self : ref) : Thr ref := Ret self.

(** [Fork.__exit__]: [pass]. *)
Definition Fork_exit (self : ref) : Thr unit := Ret tt.

(** [with mgr: body].  Only the normal path is written out: no body of a
    [with] in this program raises, and [__exit__] would let an exception
    through unchanged. *)
Definition with_ {A} (mgr : Thr ref) (body : Thr A) : Thr A :=
  m <- mgr ;;
  _ <- Fork_enter m ;;
  r <- body ;;
  Fork_exit m ;;
  Ret r.

(** [Fork.pick_up] *)
Definition Fork_pick_up (self : ref) (owner : Z) : Thr ref :=
  got <- Act (LockAcquire self) ;;
  (if got : bool
   then Act (SetOwner self owner) ;; Act (SetPickedUp self true)
   else Ret tt) ;;
  Ret self.

(** [Fork.put_down] *)
Definition Fork_put_down (self : ref) : Thr unit :=
  Act (LockRelease self) ;;
  Act (SetPickedUp self false) ;;
  Act (SetOwner self (-1)%Z).

(** ** class Philosopher *)

(** [Philosopher.think]; the length of the sleep is not modelled. *)
Definition Philosopher_think (self : ref) : Thr unit := Act Sleep.

(** [Philosopher.request_forks] *)
Definition Philosopher_request_forks (self : ref) : Thr unit :=
  token <- Act (GetToken self) ;;
  Act (EventWait token) ;;
  with_ (l <- Act (GetLeftFork self) ;; i <- Act (GetIndex self) ;; Fork_pick_up l i)
    (with_ (r <- Act (GetRightFork self) ;; i <- Act (GetIndex self) ;; Fork_pick_up r i)
       (Ret tt)).

(** [Philosopher.eat] *)
Definition Philosopher_eat (self : ref) : Thr unit :=
  with_ (Act (GetLeftFork self))
    (with_ (Act (GetRightFork self))
       (s <- Act (GetSpaghetti self) ;;
        Act (SetSpaghetti self (s - 1)%Z) ;;
        Act (SetEating self true) ;;
        Act Sleep ;;
        Act (SetEating self false))).

(** [Philosopher.put_down_forks] *)
Definition Philosopher_put_down_forks (self : ref) : Thr unit :=
  l <- Act (GetLeftFork self) ;;
  Fork_put_down l ;;
  r <- Act (GetRightFork self) ;;
  Fork_put_down r.

(** [Philosopher.run] *)
Definition Philosopher_run (self : ref) : Thr unit :=
  While (s <- Act (GetSpaghetti self) ;; Ret (0 <? s)%Z)
    (Philosopher_think self ;;
     Philosopher_request_forks self ;;
     Philosopher_eat self ;;
     Philosopher_put_down_forks self).

(** ** main *)

(** The body of [main] after [n] and [m] have been assigned. *)
Definition main_body (n m : Z) : Thr unit :=
  forks <- comprehension (fun i => Act (NewFork i)) (range n) ;;
  token <- Act NewEvent ;;
  philosophers <- comprehension (fun i =>
      l <- getitem forks i ;;
      j <- py_mod (i + 1) n ;;
      r <- getitem forks j ;;
      Act (NewPhilosopher i l r m token)) (range n) ;;
  p0 <- getitem philosophers 0 ;;
  t0 <- Act (GetToken p0) ;;
  Act (EventSet t0) ;;
  for_each philosophers (fun p => Act (ThreadStart p)) ;;
  Act Render ;;
  Act Render ;;
  for_each philosophers (fun p => Act (ThreadJoin p)).

Definition main : Thr unit := main_body 5 7.

(** ** Traces, predicates and closed forms used in the statements *)

(** [evals t w tr o w']: run alone from [w], thread [t] comes to [o] (a
    value, an exception, or a call it stays blocked in) in world [w'],
    having performed [tr]. *)
Definition evals {A} (t : Thr A) (w : World) (tr : list event)
    (o : outcome A) (w' : World) : Prop :=
  o <> OutOfFuel /\ exists n, exec n t w = mkResult o w' tr.

Definition acquire_trace (f : ref) (owner : Z) : list event :=
  [EvAcquire f; EvSetOwner f owner; EvSetPickedUp f true].

Definition release_trace (f : ref) : list event :=
  [EvRelease f; EvSetPickedUp f false; EvSetOwner f (-1)%Z].

Definition request_trace (p : Philosopher) : list event :=
  EvWait (ph_token p)
    :: acquire_trace (ph_left_fork p) (ph_index p)
    ++ acquire_trace (ph_right_fork p) (ph_index p).

Definition eat_trace (self : ref) (p : Philosopher) : list event :=
  [EvSetSpaghetti self (ph_spaghetti p - 1)%Z; EvSetEating self true; EvSleep;
   EvSetEating self false].

Definition put_down_trace (p : Philosopher) : list event :=
  release_trace (ph_left_fork p) ++ release_trace (ph_right_fork p).

(** Philosopher [self] can go through a whole round without waiting: the
    gate is open, its two forks are distinct and nobody has them. *)
Record ready (self : ref) (p : Philosopher) (w : World) : Prop := mkReady {
  rd_self : philosophers w !! self = Some p;
  rd_distinct : ph_left_fork p <> ph_right_fork p;
  rd_left : exists fl, forks w !! ph_left_fork p = Some fl /\ fk_lock fl = false;
  rd_right : exists fr, forks w !! ph_right_fork p = Some fr /\ fk_lock fr = false;
  rd_token : events w !! ph_token p = Some true
}.

Definition round_trace (self : ref) (p : Philosopher) : list event :=
  EvSleep :: request_trace p ++ eat_trace self p ++ put_down_trace p.

(** The trace of [k] rounds, and the philosopher after them. *)
Fixpoint run_trace (self : ref) (p : Philosopher) (k : nat) : list event :=
  match k with
  | O => []
  | S k' => round_trace self p ++ run_trace self (fed p) k'
  end.

Fixpoint meals (k : nat) (p : Philosopher) : Philosopher :=
  match k with
  | O => p
  | S k' => meals k' (fed p)
  end.

(** The values written to [self.eating] and to [self.spaghetti], in order. *)
Fixpoint eating_writes (self : ref) (tr : list event) : list bool :=
  match tr with
  | [] => []
  | EvSetEating p b :: tr' =>
      if Nat.eqb p self then b :: eating_writes self tr' else eating_writes self tr'
  | _ :: tr' => eating_writes self tr'
  end.

Fixpoint spaghetti_writes (self : ref) (tr : list event) : list Z :=
  match tr with
  | [] => []
  | EvSetSpaghetti p s :: tr' =>
      if Nat.eqb p self then s :: spaghetti_writes self tr' else spaghetti_writes self tr'
  | _ :: tr' => spaghetti_writes self tr'
  end.

(** Number of eating transitions: writes of [True] to [self.eating]. *)
Definition eat_count (self : ref) (tr : list event) : nat :=
  length (List.filter (fun b : bool => b) (eating_writes self tr)).

(** The forks an event touches, and the events of a trace that touch one. *)
Definition fork_of (e : event) : option ref :=
  match e with
  | EvAcquire f | EvRelease f | EvSetOwner f _ | EvSetPickedUp f _ => Some f
  | _ => None
  end.

Definition fork_events (tr : list event) : list event :=
  List.filter (fun e => match fork_of e with Some _ => true | None => false end) tr.

Definition loop_cond (self : ref) : Thr bool :=
  s <- Act (GetSpaghetti self) ;; Ret (0 <? s)%Z.

Definition loop_body (self : ref) : Thr unit :=
  Philosopher_think self ;;
  Philosopher_request_forks self ;;
  Philosopher_eat self ;;
  Philosopher_put_down_forks self.

(** The forks released by a trace, in the order of the [release] calls. *)
Fixpoint release_order (tr : list event) : list ref :=
  match tr with
  | [] => []
  | EvRelease f :: tr' => f :: release_order tr'
  | _ :: tr' => release_order tr'
  end.

(** Fork invariant of the data model: held exactly when it has an owner. *)
Definition fork_inv (fk : Fork) : Prop :=
  fk_picked_up fk = true <-> fk_owner fk <> (-1)%Z.

Definition forks_inv (w : World) : Prop :=
  forall f fk, forks w !! f = Some fk -> fork_inv fk.

(** One philosopher holding both of its forks. *)
Definition holding_world : World :=
  {| forks := [fork_taken 0 (Fork_init 0); fork_taken 0 (Fork_init 1)];
     philosophers := [with_thread Running (Philosopher_init 0 0 1 7 0)];
     events := [true] |}.

(** One philosopher before its first round, forks on the table. *)
Definition resting_world (spaghetti : Z) : World :=
  {| forks := [Fork_init 0; Fork_init 1];
     philosophers := [with_thread Running (Philosopher_init 0 0 1 spaghetti 0)];
     events := [true] |}.

(** The statement that [put_down_forks] releases right first, then left. *)
Definition releases_right_then_left (self : ref) (w : World) : Prop :=
  forall p n,
    philosophers w !! self = Some p ->
    r_outcome (exec n (Philosopher_put_down_forks self) w) = Ok tt ->
    release_order (r_trace (exec n (Philosopher_put_down_forks self) w))
    = [ph_right_fork p; ph_left_fork p].

(** The table [main] lays: [n] forks, [n] philosophers in a ring, one gate. *)
Definition table_fork (i : nat) : Fork := Fork_init (Z.of_nat i).

Definition table_philosopher (n m : Z) (i : nat) : Philosopher :=
  Philosopher_init (Z.of_nat i) i (Z.to_nat ((Z.of_nat i + 1) mod n)) m 0.

Definition table_world (n m : Z) : World :=
  {| forks := map table_fork (seq 0 (Z.to_nat n));
     philosophers :=
       map (fun i => with_thread Running (table_philosopher n m i)) (seq 0 (Z.to_nat n));
     events := [true] |}.

Definition main_trace (n : Z) : list event :=
  map (fun i => EvNewFork i (Z.of_nat i)) (seq 0 (Z.to_nat n))
  ++ [EvNewEvent 0]
  ++ map EvNewPhilosopher (seq 0 (Z.to_nat n))
  ++ [EvSet 0]
  ++ map EvStart (seq 0 (Z.to_nat n))
  ++ [EvRender; EvRender].

Definition is_set (e : event) : bool :=
  match e with EvSet _ => true | _ => false end.

Definition is_start (e : event) : bool :=
  match e with EvStart _ => true | _ => false end.

(** The element expression of the comprehension that builds the
    philosophers in [main]. *)
Definition new_philosopher (n m : Z) (token : ref) (forks : list ref) (i : Z) : Thr ref :=
  l <- getitem forks i ;;
  j <- py_mod (i + 1) n ;;
  r <- getitem forks j ;;
  Act (NewPhilosopher i l r m token).

(** [k] steps of one thread, the others standing still. *)
Fixpoint tsteps {A} (k : nat) (t : Thr A) (w : World) : option (World * Thr A) :=
  match k with
  | O => Some (w, t)
  | S k' =>
      match step t w with
      | Stepped _ w' t' => tsteps k' t' w'
      | _ => None
      end
  end.

(** The lock a thread is about to acquire, if that is its next action. *)
Fixpoint next_lock {A} (t : Thr A) : option ref :=
  match t with
  | Act a => match a with LockAcquire f => Some f | _ => None end
  | Seq t1 _ => next_lock t1
  | _ => None
  end.

(** The philosophers' threads as [main] has started them. *)
Definition table_config (n m : Z) : Config :=
  mkConfig (table_world n m) (map Philosopher_run (seq 0 (Z.to_nat n))).

(** Number of steps from the top of the loop to the call that acquires the
    lock of the right fork. *)
Definition steps_to_right_fork : nat := 26.

(** The world after the first [j] philosophers have taken their left fork. *)
Definition parked_fork (j i : nat) : Fork :=
  if i <? j then fork_taken (Z.of_nat i) (table_fork i) else table_fork i.

Definition parked_world (n m : Z) (j : nat) : World :=
  set_forks (map (parked_fork j) (seq 0 (Z.to_nat n))) (table_world n m).

(** The schedule that lets philosophers [0 .. j-1], one after the other, go
    as far as the acquisition of their right fork. *)
Definition park_schedule (j : nat) : list nat :=
  concat (map (replicate steps_to_right_fork) (seq 0 j)).

(** Every philosopher holds its left fork and is stopped in the call that
    acquires its right fork. *)
Definition deadlocked (n : Z) (c : Config) : Prop :=
  length (c_threads c) = Z.to_nat n /\
  forall i, i < Z.to_nat n ->
    exists t p fl,
      c_threads c !! i = Some t /\
      philosophers (c_world c) !! i = Some p /\
      forks (c_world c) !! ph_left_fork p = Some fl /\
      fk_picked_up fl = true /\ fk_owner fl = ph_index p /\
      (0 < ph_spaghetti p)%Z /\
      next_lock t = Some (ph_right_fork p) /\
      step t (c_world c) = Blocked.

(** The right neighbour's fork in a ring of [n]. *)
Definition right_of (n : Z) (i : nat) : nat := Z.to_nat ((Z.of_nat i + 1) mod n).

(** The first [j] threads are stopped before their right fork, the others
    have not moved. *)
Definition parked (n m : Z) (j : nat) (c : Config) : Prop :=
  c_world c = parked_world n m j /\
  length (c_threads c) = Z.to_nat n /\
  (forall i, i < j -> exists t,
      c_threads c !! i = Some t /\ next_lock t = Some (right_of n i)) /\
  (forall i, j <= i < Z.to_nat n -> c_threads c !! i = Some (Philosopher_run i)).

Definition count_events (f : event -> bool) (tr : list event) : nat :=
  length (List.filter f tr).

(** * awaitme (Week04/hw/awaitme_saygin_efe_yildiz.py) *)

Module Awaitme.
Section Wrapper.

(** What a call works on and with: the program state it may change, its
    positional and keyword arguments, the values it returns and the
    exceptions it raises. *)
Variables (State Args Kwargs Value Exc : Type).










End Wrapper.



End Awaitme.

(** ** Further worlds used as concrete inputs *)

(** One philosopher whose right fork is in a neighbour's hand. *)
Definition contended_world : World :=
  {| forks := [Fork_init 0; fork_taken 1 (Fork_init 1)];
     philosophers := [with_thread Running (Philosopher_init 0 0 1 7 0)];
     events := [true] |}.

(** A fork is clean when it lies on the table as [Fork.__init__] made it,
    apart from its index. *)
Definition fork_clean (fk : Fork) : Prop :=
  fk_lock fk = false /\ fk_picked_up fk = false /\ fk_owner fk = (-1)%Z.

(** The interleaving of philosophers 0 and 1 in which 1 takes the fork
    they share between the release of its lock by 0 and the two
    assignments that follow in [put_down]. *)
Definition race_schedule : list nat :=
  replicate 70 0 ++ replicate 26 1 ++ replicate 4 0 ++ replicate 24 1.

(** The interleaving of philosophers 0 and 1 in which 0 ends [put_down]
    of the fork they share, fork 1, around the [pick_up] of 1: philosopher
    0 makes a round up to and with [self.picked_up = False] (72 steps);
    philosopher 1 thinks, passes the gate and runs [pick_up(1)] on the
    fork from beginning to end (26 steps); philosopher 0 runs
    [self.owner = -1] (2 steps). *)
Definition late_reset_schedule : list nat :=
  replicate 72 0 ++ replicate 26 1 ++ replicate 2 0.

(** Philosopher [i] of the table, started, and the world in which the
    first [j] philosophers have eaten everything while the others have
    not begun. *)
Definition seated (n m : Z) (i : nat) : Philosopher :=
  with_thread Running (table_philosopher n m i).

Definition done_philosopher (n m : Z) (j i : nat) : Philosopher :=
  if i <? j then with_spaghetti 0 (seated n m i) else seated n m i.

Definition done_world (n m : Z) (j : nat) : World :=
  set_philosophers (map (done_philosopher n m j) (seq 0 (Z.to_nat n))) (table_world n m).

Definition all_done (n m : Z) (j : nat) (c : Config) : Prop :=
  c_world c = done_world n m j /\
  length (c_threads c) = Z.to_nat n /\
  (forall i, i < j -> c_threads c !! i = Some (Ret tt)) /\
  (forall i, j <= i < Z.to_nat n -> c_threads c !! i = Some (Philosopher_run i)).

(** [keeps w w']: what [w] fixed for good is still so in [w']: an event
    that was set is set, and every philosopher and fork is still there
    with the attributes that [__init__] gave it and nothing assigns
    again. *)
Definition keeps (w w' : World) : Prop :=
  (forall t, events w !! t = Some true -> events w' !! t = Some true) /\
  (forall i p, philosophers w !! i = Some p ->
     exists p', philosophers w' !! i = Some p' /\
       ph_index p' = ph_index p /\ ph_left_fork p' = ph_left_fork p /\
       ph_right_fork p' = ph_right_fork p /\ ph_token p' = ph_token p) /\
  (forall f fk, forks w !! f = Some fk ->
     exists fk', forks w' !! f = Some fk' /\ fk_index fk' = fk_index fk).

(** * The labels of forks and philosophers ([__str__]) *)

Module Labels.
Import Ascii String.
Local Open Scope string_scope.

(** [str(z)] of an int: its decimal digits, after a minus sign when it is
    negative. *)
Definition int_str (z : Z) : string :=
  DecimalString.NilZero.string_of_int (Z.to_int z).

(** [s.rjust(width)]: spaces on the left up to [width] characters. *)
Definition rjust (width : nat) (s : string) : string :=
  string_of_list_ascii (List.repeat " "%char (width - length s)) ++ s.

(** The format spec [2d]. *)
Definition format_2d (z : Z) : string := rjust 2 (int_str z).

(** [Fork.__str__] *)
Definition Fork_str (self : Fork) : string :=
  "F" ++ format_2d (fk_index self).

(** [Philosopher.__str__] *)
Definition Philosopher_str (self : Philosopher) : string :=
  "P" ++ format_2d (ph_index self) ++ " (" ++ format_2d (ph_spaghetti self) ++ ")".

(** The characters of a decimal numeral. *)
Definition numeric (c : ascii) : bool :=
  List.existsb (Ascii.eqb c) (list_ascii_of_string "-0123456789").

Fixpoint all_chars (f : ascii -> bool) (s : string) : bool :=
  match s with
  | EmptyString => true
  | String c s' => f c && all_chars f s'
  end.

End Labels.

(** * Proofs *)

(** ** The model at work *)

Example main_lays_the_table :
  exec 200 main empty_world = mkResult Block (table_world 5 7) (main_trace 5).
Proof. vm_compute. reflexivity. Qed.

Example table_is_a_ring :
  map (fun p => (ph_left_fork p, ph_right_fork p, ph_token p))
      (philosophers (table_world 5 7))
  = [(0, 1, 0); (1, 2, 0); (2, 3, 0); (3, 4, 0); (4, 0, 0)].
Proof. reflexivity. Qed.

Example two_meals :
  let r := exec 200 (Philosopher_run 0) (resting_world 2) in
  r_outcome r = Ok tt /\
  eating_writes 0 (r_trace r) = [true; false; true; false] /\
  spaghetti_writes 0 (r_trace r) = [1; 0]%Z /\
  release_order (r_trace r) = [0; 1; 0; 1] /\
  forks (r_world r) = forks (resting_world 2).
Proof. vm_compute. repeat split. Qed.

Example put_down_twice_raises :
  let r := exec 50 (Fork_put_down 0 ;; Fork_put_down 0) holding_world in
  r_outcome r = Raise RuntimeError /\
  forks (r_world r) !! 0 = Some (fork_put (fork_taken 0 (Fork_init 0))).
Proof. vm_compute. split; reflexivity. Qed.

Example pick_up_twice_blocks :
  r_outcome (exec 50 (Fork_pick_up 0 0 ;; Fork_pick_up 0 1) (resting_world 7)) = Block.
Proof. vm_compute. reflexivity. Qed.

Example five_philosophers_stall :
  match run_schedule (table_config 5 7) (park_schedule 5) with
  | Some c =>
      map (fun f => (fk_picked_up f, fk_owner f)) (forks (c_world c))
      = [(true, 0); (true, 1); (true, 2); (true, 3); (true, 4)]%Z /\
      map (fun i => match cstep c i with Some _ => true | None => false end) (seq 0 5)
      = [false; false; false; false; false]
  | None => False
  end.
Proof. vm_compute. split; reflexivity. Qed.

Example one_philosopher_stalls_on_itself :
  match run_schedule (table_config 1 7) (park_schedule 1) with
  | Some c =>
      map (fun p => (ph_left_fork p, ph_right_fork p)) (philosophers (c_world c)) = [(0, 0)] /\
      cstep c 0 = None
  | None => False
  end.
Proof. vm_compute. split; reflexivity. Qed.

(** ** Running one thread: general facts *)

Lemma emit_emit {A} ev1 ev2 (r : result A) :
  emit ev1 (emit ev2 r) = emit (ev1 ++ ev2) r.
Proof. destruct r; unfold emit; simpl. by rewrite app_assoc. Qed.

Lemma emit_inv {A} ev (r : result A) o w tr :
  emit ev r = mkResult o w tr ->
  exists tr', r = mkResult o w tr' /\ tr = ev ++ tr'.
Proof. destruct r as [o' w' tr']; unfold emit; simpl. intros [= -> -> <-]. eauto. Qed.

(** More fuel does not change a run that has come to an end. *)
Lemma exec_mono {A} n : forall (t : Thr A) w r,
  exec n t w = r -> r_outcome r <> OutOfFuel ->
  forall m, n <= m -> exec m t w = r.
Proof.
  induction n as [|n IH]; intros t w r He Hr m Hm.
  - subst r. simpl in Hr. congruence.
  - destruct m as [|m]; [lia|]. simpl in *.
    destruct (step t w) as [ev w' t'| | |]; try assumption.
    subst r. f_equal. apply IH; [reflexivity| |lia].
    destruct (exec n t' w'); exact Hr.
Qed.

Lemma evals_exec {A} (t : Thr A) w tr o w' :
  evals t w tr o w' ->
  exists n, forall m, n <= m -> exec m t w = mkResult o w' tr.
Proof.
  intros [Ho [n Hn]]. exists n. intros m Hm.
  eapply exec_mono; eauto.
Qed.

Lemma evals_det {A} (t : Thr A) w tr1 o1 w1 tr2 o2 w2 :
  evals t w tr1 o1 w1 -> evals t w tr2 o2 w2 ->
  tr1 = tr2 /\ o1 = o2 /\ w1 = w2.
Proof.
  intros H1 H2.
  destruct (evals_exec H1) as [n1 E1], (evals_exec H2) as [n2 E2].
  specialize (E1 (n1 + n2) ltac:(lia)). specialize (E2 (n1 + n2) ltac:(lia)).
  rewrite E1 in E2. by injection E2 as -> -> ->.
Qed.

Lemma evals_ret {A} (a : A) w : evals (Ret a) w [] (Ok a) w.
Proof. split; [done|]. by exists 1. Qed.

Lemma evals_throw {A} e w : evals (@Throw A e) w [] (Raise e) w.
Proof. split; [done|]. by exists 1. Qed.

Lemma evals_act {R} (a : action R) w ev r w' :
  sem a w = AOk ev r w' -> evals (Act a) w ev (Ok r) w'.
Proof.
  intros H. split; [done|]. exists 2. simpl. rewrite H. simpl.
  unfold emit; simpl. by rewrite app_nil_r.
Qed.

Lemma evals_act_raise {R} (a : action R) w ev e :
  sem a w = ARaise ev e -> evals (Act a) w ev (Raise e) w.
Proof.
  intros H. split; [done|]. exists 2. simpl. rewrite H. simpl.
  unfold emit; simpl. by rewrite app_nil_r.
Qed.

Lemma evals_act_block {R} (a : action R) w :
  sem a w = ABlock -> evals (Act a) w [] Block w.
Proof. intros H. split; [done|]. exists 1. simpl. by rewrite H. Qed.

Lemma exec_seq {A B} (k : A -> Thr B) a w1 m r n : forall (t : Thr A) w tr1,
  exec n t w = mkResult (Ok a) w1 tr1 ->
  exec m (k a) w1 = r -> r_outcome r <> OutOfFuel ->
  exec (n + m) (Seq t k) w = emit tr1 r.
Proof.
  induction n as [|n IH]; intros t w tr1 He Hk Hr; [discriminate|].
  simpl in *. destruct (step t w) as [ev w' t'| |a'|e]; try discriminate.
  - apply emit_inv in He as (tr' & He & ->).
    rewrite (IH _ _ _ He Hk Hr). by rewrite emit_emit.
  - injection He as -> -> <-. f_equal. eapply exec_mono; eauto. lia.
Qed.

Lemma exec_seq_raise {A B} (k : A -> Thr B) e w1 n : forall (t : Thr A) w tr1,
  exec n t w = mkResult (Raise e) w1 tr1 ->
  exec (S n) (Seq t k) w = mkResult (Raise e) w1 tr1.
Proof.
  induction n as [|n IH]; intros t w tr1 He; [discriminate|].
  simpl in He. destruct (step t w) as [ev w' t'| |a'|e'] eqn:Hs; try discriminate.
  - apply emit_inv in He as (tr' & He & ->).
    change (exec (S (S n)) (Seq t k) w) with
      (match step (Seq t k) w with
       | Returned a => mkResult (Ok a) w []
       | Thrown e => mkResult (Raise e) w []
       | Blocked => mkResult Block w []
       | Stepped ev w' t' => emit ev (exec (S n) t' w')
       end).
    simpl step. rewrite Hs. by rewrite (IH _ _ _ He).
  - injection He as -> -> <-. simpl. by rewrite Hs.
Qed.

Lemma exec_seq_block {A B} (k : A -> Thr B) w1 n : forall (t : Thr A) w tr1,
  exec n t w = mkResult Block w1 tr1 ->
  exec n (Seq t k) w = mkResult Block w1 tr1.
Proof.
  induction n as [|n IH]; intros t w tr1 He; [discriminate|].
  simpl in *. destruct (step t w) as [ev w' t'| |a'|e'] eqn:Hs; try discriminate.
  - apply emit_inv in He as (tr' & He & ->).
    by rewrite (IH _ _ _ He).
  - by injection He as -> <-.
Qed.

Lemma evals_seq {A B} (t : Thr A) (k : A -> Thr B) w tr1 a w1 tr2 o w2 :
  evals t w tr1 (Ok a) w1 -> evals (k a) w1 tr2 o w2 ->
  evals (Seq t k) w (tr1 ++ tr2) o w2.
Proof.
  intros [_ [n Hn]] [Ho [m Hm]]. split; [done|]. exists (n + m).
  erewrite exec_seq; [|exact Hn|exact Hm|exact Ho]. reflexivity.
Qed.

Lemma evals_seq_raise {A B} (t : Thr A) (k : A -> Thr B) w tr e w1 :
  evals t w tr (Raise e) w1 -> evals (Seq t k) w tr (Raise e) w1.
Proof.
  intros [_ [n Hn]]. split; [done|]. exists (S n). by apply exec_seq_raise.
Qed.

Lemma evals_seq_block {A B} (t : Thr A) (k : A -> Thr B) w tr w1 :
  evals t w tr Block w1 -> evals (Seq t k) w tr Block w1.
Proof.
  intros [_ [n Hn]]. split; [done|]. exists n. by apply exec_seq_block.
Qed.

Lemma evals_step {A} (t t' : Thr A) w ev w' tr o w2 :
  step t w = Stepped ev w' t' -> evals t' w' tr o w2 ->
  evals t w (ev ++ tr) o w2.
Proof.
  intros Hs [Ho [n Hn]]. split; [done|]. exists (S n). simpl. by rewrite Hs, Hn.
Qed.

Lemma evals_while_false c b w tr w1 :
  evals c w tr (Ok false) w1 -> evals (While c b) w tr (Ok tt) w1.
Proof.
  intros Hc. eapply evals_step with (ev := []); [reflexivity|].
  rewrite <- (app_nil_r tr). eapply evals_seq; [exact Hc|]. apply evals_ret.
Qed.

Lemma evals_while_true c b w tr1 w1 tr2 w2 tr3 o w3 :
  evals c w tr1 (Ok true) w1 ->
  evals b w1 tr2 (Ok tt) w2 ->
  evals (While c b) w2 tr3 o w3 ->
  evals (While c b) w (tr1 ++ tr2 ++ tr3) o w3.
Proof.
  intros Hc Hb Hw. eapply evals_step with (ev := []); [reflexivity|].
  eapply evals_seq; [exact Hc|]. simpl.
  eapply evals_seq; [exact Hb|]. exact Hw.
Qed.

(** ** World updates *)

Lemma evals_eq {A} (t : Thr A) w tr o w' tr' o' w'' :
  evals t w tr o w' -> tr = tr' -> o = o' -> w' = w'' -> evals t w tr' o' w''.
Proof. by intros H <- <- <-. Qed.

Lemma set_forks_id w : set_forks (forks w) w = w.
Proof. by destruct w. Qed.

Lemma set_philosophers_id w : set_philosophers (philosophers w) w = w.
Proof. by destruct w. Qed.

Ltac solve_lt :=
  rewrite ?length_insert; eapply lookup_lt_Some; eassumption.

(** Resolve the heap lookups of a goal from the hypotheses at hand. *)
Ltac heap_simpl :=
  repeat first
    [ progress (cbn [forks philosophers events set_forks set_philosophers set_events
                     fk_index fk_lock fk_picked_up fk_owner
                     with_lock with_owner with_picked_up
                     ph_index ph_left_fork ph_right_fork ph_spaghetti ph_eating
                     ph_token ph_thread with_spaghetti with_eating with_thread
                     fork_taken fork_put fed])
    | rewrite list_lookup_insert_eq by solve_lt
    | rewrite list_lookup_insert_ne by (assumption || congruence)
    | match goal with
      | H : ?l !! ?i = Some _ |- context [?l !! ?i] => rewrite H
      | H : ?b = true |- context [if ?b then _ else _] => rewrite H
      | H : ?b = false |- context [if ?b then _ else _] => rewrite H
      end ].

(** Run one primitive action whose outcome the hypotheses determine. *)
Ltac run_act :=
  first [ eapply evals_act | eapply evals_act_raise | eapply evals_act_block ];
  cbn [sem]; unfold on_fork, on_phil; heap_simpl; reflexivity.

(** Run a program built from [Seq], [Ret] and actions. *)
Ltac run_prog :=
  lazymatch goal with
  | |- evals (Seq _ _) _ _ _ _ => eapply evals_seq; [run_prog | cbv beta; run_prog]
  | |- evals (Ret _) _ _ _ _ => apply evals_ret
  | |- evals (Act _) _ _ _ _ => run_act
  | |- evals (if true then _ else _) _ _ _ _ => cbv iota; run_prog
  | |- evals (if false then _ else _) _ _ _ _ => cbv iota; run_prog
  | |- _ => idtac
  end.

(** ** What the methods of [Fork] do *)

Lemma Fork_pick_up_free w f fk owner :
  forks w !! f = Some fk -> fk_lock fk = false ->
  evals (Fork_pick_up f owner) w
    [EvAcquire f; EvSetOwner f owner; EvSetPickedUp f true]
    (Ok f)
    (set_forks (<[f := fork_taken owner fk]> (forks w)) w).
Proof.
  intros Hf Hl. unfold Fork_pick_up.
  eapply evals_eq; [run_prog| | |]; try reflexivity.
  cbn. by rewrite !list_insert_insert_eq.
Qed.

Lemma Fork_pick_up_locked w f fk owner :
  forks w !! f = Some fk -> fk_lock fk = true ->
  evals (Fork_pick_up f owner) w [] Block w.
Proof.
  intros Hf Hl. unfold Fork_pick_up.
  apply evals_seq_block. run_act.
Qed.

Lemma Fork_put_down_locked w f fk :
  forks w !! f = Some fk -> fk_lock fk = true ->
  evals (Fork_put_down f) w
    [EvRelease f; EvSetPickedUp f false; EvSetOwner f (-1)%Z]
    (Ok tt)
    (set_forks (<[f := fork_put fk]> (forks w)) w).
Proof.
  intros Hf Hl. unfold Fork_put_down.
  eapply evals_eq; [run_prog| | |]; try reflexivity.
  cbn. by rewrite !list_insert_insert_eq.
Qed.

Lemma Fork_put_down_unlocked w f fk :
  forks w !! f = Some fk -> fk_lock fk = false ->
  evals (Fork_put_down f) w [EvRelease f] (Raise RuntimeError) w.
Proof.
  intros Hf Hl. unfold Fork_put_down.
  apply evals_seq_raise. run_act.
Qed.

(** ** What the methods of [Philosopher] do *)

Section PhilosopherMethods.
Variables (w : World) (self : ref) (p : Philosopher) (fl fr : Fork).
Hypothesis Hself : philosophers w !! self = Some p.
Hypothesis Hl : forks w !! ph_left_fork p = Some fl.
Hypothesis Hr : forks w !! ph_right_fork p = Some fr.
Hypothesis Hlr : ph_left_fork p <> ph_right_fork p.

Lemma request_forks_free :
  events w !! ph_token p = Some true ->
  fk_lock fl = false -> fk_lock fr = false ->
  evals (Philosopher_request_forks self) w (request_trace p) (Ok tt)
    (set_forks (<[ph_right_fork p := fork_taken (ph_index p) fr]>
                  (<[ph_left_fork p := fork_taken (ph_index p) fl]> (forks w))) w).
Proof.
  intros Ht Hfl Hfr.
  unfold Philosopher_request_forks, with_, Fork_enter, Fork_exit, Fork_pick_up.
  eapply evals_eq; [run_prog| | |]; try reflexivity.
  cbn. by rewrite !list_insert_insert_eq.
Qed.

Lemma eat_spec :
  evals (Philosopher_eat self) w (eat_trace self p) (Ok tt)
    (set_philosophers (<[self := fed p]> (philosophers w)) w).
Proof.
  unfold Philosopher_eat, with_, Fork_enter, Fork_exit.
  eapply evals_eq; [run_prog| | |]; try reflexivity.
  cbn. by rewrite !list_insert_insert_eq.
Qed.

Lemma put_down_forks_held :
  fk_lock fl = true -> fk_lock fr = true ->
  evals (Philosopher_put_down_forks self) w (put_down_trace p) (Ok tt)
    (set_forks (<[ph_right_fork p := fork_put fr]>
                  (<[ph_left_fork p := fork_put fl]> (forks w))) w).
Proof.
  intros Hfl Hfr.
  unfold Philosopher_put_down_forks, Fork_put_down.
  eapply evals_eq; [run_prog| | |]; try reflexivity.
  cbn. by rewrite !list_insert_insert_eq.
Qed.

End PhilosopherMethods.

(** ** The loop of [Philosopher.run], one thread alone *)

Lemma Philosopher_run_unfold self :
  Philosopher_run self = While (loop_cond self) (loop_body self).
Proof. reflexivity. Qed.

Lemma loop_cond_spec w self p :
  philosophers w !! self = Some p ->
  evals (loop_cond self) w [] (Ok (0 <? ph_spaghetti p)%Z) w.
Proof.
  intros Hp. unfold loop_cond.
  eapply evals_eq; [run_prog| | |]; reflexivity.
Qed.

Lemma loop_body_spec w self p :
  ready self p w ->
  exists w',
    evals (loop_body self) w (round_trace self p) (Ok tt) w' /\
    ready self (fed p) w' /\
    events w' = events w.
Proof.
  intros [Hp Hlr (fl & Hl & Hfl) (fr & Hr & Hfr) Ht].
  eexists. split; [|split].
  - unfold loop_body, Philosopher_think.
    eapply evals_eq.
    + eapply evals_seq; [run_act|].
      eapply evals_seq; [eapply request_forks_free; eauto|].
      eapply evals_seq.
      { eapply eat_spec with (p := p); heap_simpl; eauto. }
      eapply put_down_forks_held with (p := fed p)
        (fl := fork_taken (ph_index p) fl) (fr := fork_taken (ph_index p) fr);
        heap_simpl; eauto.
    + reflexivity.
    + reflexivity.
    + reflexivity.
  - split; heap_simpl; eauto.
  - reflexivity.
Qed.

Lemma eating_writes_app self tr1 tr2 :
  eating_writes self (tr1 ++ tr2) = eating_writes self tr1 ++ eating_writes self tr2.
Proof.
  induction tr1 as [|e tr1 IH]; [reflexivity|].
  destruct e; simpl; try exact IH.
  destruct (Nat.eqb p self); simpl; by rewrite IH.
Qed.

Lemma spaghetti_writes_app self tr1 tr2 :
  spaghetti_writes self (tr1 ++ tr2)
  = spaghetti_writes self tr1 ++ spaghetti_writes self tr2.
Proof.
  induction tr1 as [|e tr1 IH]; [reflexivity|].
  destruct e; simpl; try exact IH.
  destruct (Nat.eqb p self); simpl; by rewrite IH.
Qed.

Lemma eating_writes_round self p :
  eating_writes self (round_trace self p) = [true; false].
Proof. simpl. by rewrite !Nat.eqb_refl. Qed.

Lemma spaghetti_writes_round self p :
  spaghetti_writes self (round_trace self p) = [(ph_spaghetti p - 1)%Z].
Proof. simpl. by rewrite !Nat.eqb_refl. Qed.

Lemma eating_writes_run self k : forall p,
  eating_writes self (run_trace self p k) = concat (replicate k [true; false]).
Proof.
  induction k as [|k IH]; intros p; [reflexivity|].
  cbn [run_trace]. rewrite eating_writes_app, eating_writes_round, IH. reflexivity.
Qed.

Lemma eat_count_run self k p : eat_count self (run_trace self p k) = k.
Proof.
  unfold eat_count. rewrite eating_writes_run.
  induction k as [|k IH]; [reflexivity|]. simpl. by rewrite IH.
Qed.

Lemma spaghetti_writes_run self k : forall p,
  spaghetti_writes self (run_trace self p k)
  = map (fun j => (ph_spaghetti p - Z.of_nat j)%Z) (seq 1 k).
Proof.
  induction k as [|k IH]; intros p; [reflexivity|].
  cbn [run_trace]. rewrite spaghetti_writes_app, spaghetti_writes_round, IH.
  cbn [seq map app]. f_equal.
  rewrite <- (seq_shift k 1), map_map. apply map_ext. intros j. cbn. lia.
Qed.

Lemma meals_spaghetti k : forall p,
  ph_spaghetti (meals k p) = (ph_spaghetti p - Z.of_nat k)%Z.
Proof.
  induction k as [|k IH]; intros p; cbn [meals]; [lia|].
  rewrite IH. cbn. lia.
Qed.

(** With [k] portions left and nobody in its way, the loop makes exactly
    [k] rounds and ends. *)
Lemma run_rounds self k : forall w p,
  ready self p w -> ph_spaghetti p = Z.of_nat k ->
  exists w',
    evals (Philosopher_run self) w (run_trace self p k) (Ok tt) w' /\
    ready self (meals k p) w' /\
    events w' = events w.
Proof.
  induction k as [|k IH]; intros w p Hrd Hs.
  - exists w. split; [|done]. rewrite Philosopher_run_unfold.
    apply evals_while_false.
    eapply evals_eq; [apply loop_cond_spec, Hrd|done| |done].
    by rewrite Hs.
  - destruct (loop_body_spec Hrd) as (w1 & Hbody & Hrd1 & Hev1).
    destruct (IH w1 (fed p) Hrd1) as (w2 & Hrest & Hrd2 & Hev2).
    { cbn. lia. }
    exists w2. split; [|split; [assumption|congruence]].
    rewrite Philosopher_run_unfold in *.
    eapply evals_eq; [eapply evals_while_true|..].
    + eapply evals_eq; [apply loop_cond_spec, Hrd|done| |done].
      rewrite Hs. reflexivity.
    + exact Hbody.
    + exact Hrest.
    + reflexivity.
    + reflexivity.
    + reflexivity.
Qed.

Lemma ready_resting s : ready 0 (with_thread Running (Philosopher_init 0 0 1 s 0)) (resting_world s).
Proof. split; cbn; eauto. Qed.

(** C1 (as stated, refuted): holding forks 0 (left) and 1 (right),
    [put_down_forks] releases fork 0 first, so the order is not right
    then left. *)
Lemma put_down_forks_not_right_first : ~ releases_right_then_left 0 holding_world.
Proof.
  intros H. specialize (H _ 30 eq_refl eq_refl). vm_compute in H. discriminate.
Qed.

(** C1 (amended): a philosopher that holds its two (distinct) forks
    releases the left fork first and the right fork second, and
    [put_down_forks] returns normally. *)
Theorem put_down_forks_left_then_right w self p fl fr :
  philosophers w !! self = Some p ->
  forks w !! ph_left_fork p = Some fl ->
  forks w !! ph_right_fork p = Some fr ->
  ph_left_fork p <> ph_right_fork p ->
  fk_lock fl = true -> fk_lock fr = true ->
  exists fuel w' tr,
    (forall n, fuel <= n ->
       exec n (Philosopher_put_down_forks self) w = mkResult (Ok tt) w' tr) /\
    release_order tr = [ph_left_fork p; ph_right_fork p] /\
    forks w' !! ph_left_fork p = Some (fork_put fl) /\
    forks w' !! ph_right_fork p = Some (fork_put fr).
Proof.
  intros Hp Hl Hr Hlr Hfl Hfr.
  destruct (evals_exec (put_down_forks_held w self Hp Hl Hr Hlr Hfl Hfr)) as [fuel Hfuel].
  exists fuel. eexists. eexists. split; [exact Hfuel|].
  split; [reflexivity|]. split; heap_simpl; reflexivity.
Qed.

Lemma put_down_forks_left_then_right_witness :
  exists fuel w' tr,
    (forall n, fuel <= n ->
       exec n (Philosopher_put_down_forks 0) holding_world = mkResult (Ok tt) w' tr) /\
    release_order tr = [0; 1] /\
    forks w' !! 0 = Some (fork_put (fork_taken 0 (Fork_init 0))) /\
    forks w' !! 1 = Some (fork_put (fork_taken 0 (Fork_init 1))).
Proof.
  apply (@put_down_forks_left_then_right holding_world 0
           (with_thread Running (Philosopher_init 0 0 1 7 0))
           (fork_taken 0 (Fork_init 0)) (fork_taken 0 (Fork_init 1)));
    try reflexivity.
  simpl. lia.
Defined.

(** C2: [put_down] on a fork that is not held, its lock being free,
    raises [RuntimeError] and leaves the whole world, so also [picked_up]
    and [owner], as it was; on a fork that is held, its lock being taken,
    it does not raise: it returns and leaves [owner = -1],
    [picked_up = False] and the lock free.  The lock alone decides:
    [picked_up] and [owner] are not looked at. *)
Theorem put_down_not_held_raises w f fk :
  forks w !! f = Some fk ->
  (fk_lock fk = false ->
   exists fuel, forall n, fuel <= n ->
     exec n (Fork_put_down f) w = mkResult (Raise RuntimeError) w [EvRelease f]) /\
  (fk_lock fk = true ->
   exists fuel w', (forall n, fuel <= n ->
     exec n (Fork_put_down f) w = mkResult (Ok tt) w' (release_trace f)) /\
     exists fk', forks w' !! f = Some fk' /\
       fk_owner fk' = (-1)%Z /\ fk_picked_up fk' = false /\ fk_lock fk' = false).
Proof.
  intros Hf. split; intros Hl.
  - exact (evals_exec (Fork_put_down_unlocked w f Hf Hl)).
  - destruct (evals_exec (Fork_put_down_locked w f Hf Hl)) as [fuel Hfuel].
    exists fuel. eexists. split; [exact Hfuel|].
    exists (fork_put fk). heap_simpl. done.
Qed.

Lemma put_down_not_held_raises_witness :
  (exists fuel, forall n, fuel <= n ->
     exec n (Fork_put_down 0) (resting_world 7)
     = mkResult (Raise RuntimeError) (resting_world 7) [EvRelease 0]) /\
  (exists fuel w', (forall n, fuel <= n ->
     exec n (Fork_put_down 0) holding_world = mkResult (Ok tt) w' (release_trace 0)) /\
     exists fk', forks w' !! 0 = Some fk' /\
       fk_owner fk' = (-1)%Z /\ fk_picked_up fk' = false /\ fk_lock fk' = false).
Proof.
  split.
  - apply (proj1 (@put_down_not_held_raises (resting_world 7) 0 (Fork_init 0)
                    eq_refl) eq_refl).
  - apply (proj2 (@put_down_not_held_raises holding_world 0 (fork_taken 0 (Fork_init 0))
                    eq_refl) eq_refl).
Defined.

Lemma forks_inv_insert w f fk :
  forks_inv w -> fork_inv fk -> forks_inv (set_forks (<[f := fk]> (forks w)) w).
Proof.
  intros Hw Hfk g gk. cbn.
  destruct (decide (f = g)) as [<-|Hne].
  - intros Hg. destruct (forks w !! f) as [old|] eqn:Hold.
    + rewrite list_lookup_insert_eq in Hg by solve_lt. by injection Hg as <-.
    + rewrite list_insert_ge in Hg by (by apply lookup_ge_None). congruence.
  - rewrite list_lookup_insert_ne by done. apply Hw.
Qed.

Lemma fork_inv_taken owner fk : owner <> (-1)%Z -> fork_inv (fork_taken owner fk).
Proof. intros H. split; cbn; done. Qed.

Lemma fork_inv_put fk : fork_inv (fork_put fk).
Proof. split; cbn; [discriminate|]. intros H. by destruct H. Qed.

(** X14: calls of [Fork] that run alone, no other thread taking a step
    between their statements.  A new fork satisfies the invariant (held
    exactly when it has an owner); [pick_up(by)] on a free fork returns
    with [picked_up = True] and [owner = by]; [put_down] on a held fork
    returns with [picked_up = False] and [owner = -1]; and both keep the
    invariant of every fork of the world, [by] being an actor index and
    so not the value [-1] that stands for no owner. *)
Theorem fork_invariant_preserved w f fk by_ index :
  forks w !! f = Some fk ->
  forks_inv w ->
  fork_inv (Fork_init index) /\
  fk_picked_up (Fork_init index) = false /\ fk_owner (Fork_init index) = (-1)%Z /\
  (fk_lock fk = false ->
   exists fuel w' tr fk',
     (forall n, fuel <= n -> exec n (Fork_pick_up f by_) w = mkResult (Ok f) w' tr) /\
     forks w' !! f = Some fk' /\
     fk_picked_up fk' = true /\ fk_owner fk' = by_ /\
     (by_ <> (-1)%Z -> forks_inv w')) /\
  (fk_lock fk = true ->
   exists fuel w' tr fk',
     (forall n, fuel <= n -> exec n (Fork_put_down f) w = mkResult (Ok tt) w' tr) /\
     forks w' !! f = Some fk' /\
     fk_picked_up fk' = false /\ fk_owner fk' = (-1)%Z /\ forks_inv w').
Proof.
  intros Hf Hw. split; [|split; [done|split; [done|split]]].
  - split; cbn; [discriminate|]. intros H. by destruct H.
  - intros Hl.
    destruct (evals_exec (Fork_pick_up_free w f by_ Hf Hl)) as [fuel Hfuel].
    exists fuel. eexists. eexists. exists (fork_taken by_ fk).
    split; [exact Hfuel|]. heap_simpl.
    split; [done|]. split; [done|]. split; [done|].
    intros Hby. apply forks_inv_insert; [done|]. by apply fork_inv_taken.
  - intros Hl.
    destruct (evals_exec (Fork_put_down_locked w f Hf Hl)) as [fuel Hfuel].
    exists fuel. eexists. eexists. exists (fork_put fk).
    split; [exact Hfuel|]. heap_simpl.
    split; [done|]. split; [done|]. split; [done|].
    apply forks_inv_insert; [done|]. apply fork_inv_put.
Qed.

Lemma forks_inv_resting s : forks_inv (resting_world s).
Proof.
  intros [|[|f]] fk; cbn; intros [= <-] ||  (try discriminate);
    (split; cbn; [discriminate|intros H; by destruct H]).
Qed.

Lemma forks_inv_holding : forks_inv holding_world.
Proof.
  intros [|[|f]] fk; cbn; intros [= <-] || (try discriminate);
    split; cbn; done.
Qed.

Lemma fork_invariant_preserved_witness :
  (exists fuel w' tr fk',
     (forall n, fuel <= n ->
        exec n (Fork_pick_up 1 3) (resting_world 7) = mkResult (Ok 1) w' tr) /\
     forks w' !! 1 = Some fk' /\
     fk_picked_up fk' = true /\ fk_owner fk' = 3%Z /\
     (3 <> -1 -> forks_inv w')%Z) /\
  (exists fuel w' tr fk',
     (forall n, fuel <= n ->
        exec n (Fork_put_down 1) holding_world = mkResult (Ok tt) w' tr) /\
     forks w' !! 1 = Some fk' /\
     fk_picked_up fk' = false /\ fk_owner fk' = (-1)%Z /\ forks_inv w').
Proof.
  split.
  - apply (@fork_invariant_preserved (resting_world 7) 1 (Fork_init 1) 3 0
             eq_refl (forks_inv_resting 7)).
    reflexivity.
  - apply (@fork_invariant_preserved holding_world 1 (fork_taken 0 (Fork_init 1)) 3 0
             eq_refl forks_inv_holding).
    reflexivity.
Defined.

Lemma request_forks_gate_closed w self p :
  philosophers w !! self = Some p ->
  events w !! ph_token p = Some false ->
  evals (Philosopher_request_forks self) w [] Block w.
Proof.
  intros Hp Ht. unfold Philosopher_request_forks.
  eapply evals_eq; [eapply evals_seq; [run_act|]|..]; [|reflexivity..].
  cbv beta. apply evals_seq_block. run_act.
Qed.

(** C5: [request_forks] waits on the gate, then takes the left fork, then
    the right fork, each time writing the philosopher's own index as the
    owner; nothing else happens in between (no sleep, no release), and
    with the gate closed it blocks before touching a fork. *)
Theorem request_forks_gate_left_right w self p :
  ready self p w ->
  exists fuel w',
    (forall n, fuel <= n ->
       exec n (Philosopher_request_forks self) w
       = mkResult (Ok tt) w'
           [EvWait (ph_token p);
            EvAcquire (ph_left_fork p);
            EvSetOwner (ph_left_fork p) (ph_index p);
            EvSetPickedUp (ph_left_fork p) true;
            EvAcquire (ph_right_fork p);
            EvSetOwner (ph_right_fork p) (ph_index p);
            EvSetPickedUp (ph_right_fork p) true]) /\
    (forall n, fuel <= n ->
       exec n (Philosopher_request_forks self)
              (set_events (<[ph_token p := false]> (events w)) w)
       = mkResult Block (set_events (<[ph_token p := false]> (events w)) w) []).
Proof.
  intros [Hp Hlr (fl & Hl & Hfl) (fr & Hr & Hfr) Ht].
  destruct (evals_exec (request_forks_free w self Hp Hl Hr Hlr Ht Hfl Hfr))
    as [fuel1 Hfuel1].
  assert (Hclosed : events (set_events (<[ph_token p := false]> (events w)) w)
                      !! ph_token p = Some false).
  { cbn. apply list_lookup_insert_eq. by eapply lookup_lt_Some. }
  destruct (evals_exec (@request_forks_gate_closed
              (set_events (<[ph_token p := false]> (events w)) w) self p Hp Hclosed))
    as [fuel2 Hfuel2].
  exists (fuel1 + fuel2). eexists. split; intros n Hn.
  - apply Hfuel1. lia.
  - apply Hfuel2. lia.
Qed.

Lemma request_forks_gate_left_right_witness :
  exists fuel w',
    forall n, fuel <= n ->
       exec n (Philosopher_request_forks 0) (resting_world 7)
       = mkResult (Ok tt) w'
           [EvWait 0; EvAcquire 0; EvSetOwner 0 0; EvSetPickedUp 0 true;
            EvAcquire 1; EvSetOwner 1 0; EvSetPickedUp 1 true].
Proof.
  destruct (@request_forks_gate_left_right (resting_world 7) 0 _ (ready_resting 7))
    as (fuel & w' & H & _).
  exists fuel, w'. exact H.
Defined.

(** C7: with a budget that is not positive, [run] returns at once: no
    event at all (no eating, no fork or gate operation) and the world,
    so also [spaghetti] and [eating], exactly as before. *)
Theorem run_nonpositive_budget w self p :
  philosophers w !! self = Some p ->
  (ph_spaghetti p <= 0)%Z ->
  exists fuel, forall n, fuel <= n ->
    exec n (Philosopher_run self) w = mkResult (Ok tt) w [].
Proof.
  intros Hp Hs. apply evals_exec.
  rewrite Philosopher_run_unfold. apply evals_while_false.
  eapply evals_eq; [apply loop_cond_spec, Hp|done| |done].
  f_equal. apply Z.ltb_ge. lia.
Qed.

Lemma run_nonpositive_budget_witness :
  exists fuel, forall n, fuel <= n ->
    exec n (Philosopher_run 0) (resting_world (-2)) = mkResult (Ok tt) (resting_world (-2)) [].
Proof.
  apply (@run_nonpositive_budget (resting_world (-2)) 0
           (with_thread Running (Philosopher_init 0 0 1 (-2) 0)) eq_refl).
  simpl. lia.
Defined.

(** C3: a philosopher with budget [M >= 0] that never has to wait ends
    its run with [spaghetti = 0] after exactly [M] eating transitions:
    [eating] is written [True, False] [M] times and [spaghetti] takes the
    values [M-1, ..., 0]. *)
Theorem run_eats_whole_budget w self p :
  ready self p w ->
  (0 <= ph_spaghetti p)%Z ->
  exists fuel w' tr p',
    (forall n, fuel <= n ->
       exec n (Philosopher_run self) w = mkResult (Ok tt) w' tr) /\
    philosophers w' !! self = Some p' /\
    ph_spaghetti p' = 0%Z /\
    eat_count self tr = Z.to_nat (ph_spaghetti p) /\
    eating_writes self tr = concat (replicate (Z.to_nat (ph_spaghetti p)) [true; false]) /\
    spaghetti_writes self tr
    = map (fun j => (ph_spaghetti p - Z.of_nat j)%Z) (seq 1 (Z.to_nat (ph_spaghetti p))).
Proof.
  intros Hrd Hs.
  destruct (@run_rounds self (Z.to_nat (ph_spaghetti p)) w p Hrd ltac:(lia))
    as (w' & Hev & Hrd' & _).
  destruct (evals_exec Hev) as [fuel Hfuel].
  exists fuel, w', (run_trace self p (Z.to_nat (ph_spaghetti p))),
    (meals (Z.to_nat (ph_spaghetti p)) p).
  split; [exact Hfuel|]. split; [apply Hrd'|].
  split; [rewrite meals_spaghetti; lia|].
  split; [apply eat_count_run|].
  split; [apply eating_writes_run|apply spaghetti_writes_run].
Qed.

Lemma run_eats_whole_budget_witness :
  exists fuel w' tr p',
    (forall n, fuel <= n ->
       exec n (Philosopher_run 0) (resting_world 7) = mkResult (Ok tt) w' tr) /\
    philosophers w' !! 0 = Some p' /\
    ph_spaghetti p' = 0%Z /\
    eat_count 0 tr = 7 /\
    eating_writes 0 tr = concat (replicate 7 [true; false]) /\
    spaghetti_writes 0 tr = [6; 5; 4; 3; 2; 1; 0]%Z.
Proof.
  apply (@run_eats_whole_budget (resting_world 7) 0 _ (ready_resting 7)).
  simpl. lia.
Defined.

(** C9: [__enter__] returns the fork and [__exit__] does nothing, so the
    [with] blocks release nothing: when [request_forks] returns, both
    forks are locked, picked up and owned by the philosopher, and [eat]
    then changes no fork and no event, only [spaghetti] and [eating] of
    the philosopher itself. *)
Theorem with_blocks_release_nothing w self p :
  ready self p w ->
  (forall f w0 n, 0 < n ->
     exec n (Fork_enter f) w0 = mkResult (Ok f) w0 [] /\
     exec n (Fork_exit f) w0 = mkResult (Ok tt) w0 []) /\
  exists fuel w1 w2 tr1 tr2 fl fr,
    forks w !! ph_left_fork p = Some fl /\
    forks w !! ph_right_fork p = Some fr /\
    (forall n, fuel <= n ->
       exec n (Philosopher_request_forks self) w = mkResult (Ok tt) w1 tr1) /\
    forks w1 !! ph_left_fork p = Some (fork_taken (ph_index p) fl) /\
    forks w1 !! ph_right_fork p = Some (fork_taken (ph_index p) fr) /\
    release_order tr1 = [] /\
    (forall n, fuel <= n ->
       exec n (Philosopher_eat self) w1 = mkResult (Ok tt) w2 tr2) /\
    forks w2 = forks w1 /\
    events w2 = events w1 /\
    philosophers w2 = <[self := fed p]> (philosophers w1) /\
    fork_events tr2 = [].
Proof.
  intros [Hp Hlr (fl & Hl & Hfl) (fr & Hr & Hfr) Ht].
  split.
  { intros f w0 [|n] Hn; [lia|]. by split. }
  destruct (evals_exec (request_forks_free w self Hp Hl Hr Hlr Ht Hfl Hfr))
    as [fuel1 Hfuel1].
  set (w1 := set_forks (<[ph_right_fork p := fork_taken (ph_index p) fr]>
                (<[ph_left_fork p := fork_taken (ph_index p) fl]> (forks w))) w) in *.
  assert (Hp1 : philosophers w1 !! self = Some p) by exact Hp.
  destruct (evals_exec (eat_spec w1 self Hp1)) as [fuel2 Hfuel2].
  exists (fuel1 + fuel2), w1. eexists. eexists. eexists. exists fl, fr.
  split; [exact Hl|]. split; [exact Hr|].
  split; [intros n Hn; apply Hfuel1; lia|].
  split; [subst w1; heap_simpl; reflexivity|].
  split; [subst w1; heap_simpl; reflexivity|].
  split; [reflexivity|].
  split; [intros n Hn; apply Hfuel2; lia|].
  repeat split.
Qed.

Lemma with_blocks_release_nothing_witness :
  exists fuel w1 w2 tr1 tr2,
    (forall n, fuel <= n ->
       exec n (Philosopher_request_forks 0) (resting_world 7) = mkResult (Ok tt) w1 tr1) /\
    (forall n, fuel <= n ->
       exec n (Philosopher_eat 0) w1 = mkResult (Ok tt) w2 tr2) /\
    forks w2 = forks w1.
Proof.
  destruct (proj2 (@with_blocks_release_nothing (resting_world 7) 0 _ (ready_resting 7)))
    as (fuel & w1 & w2 & tr1 & tr2 & fl & fr & _ & _ & H1 & _ & _ & _ & H2 & H3 & _).
  exists fuel, w1, w2, tr1, tr2. auto.
Defined.

(** ** main *)

Lemma getitem_seq N (z : Z) :
  (0 <= z < Z.of_nat N)%Z -> getitem (seq 0 N) z = Ret (Z.to_nat z).
Proof.
  intros Hz. unfold getitem.
  destruct (z <? 0)%Z eqn:E; [apply Z.ltb_lt in E; lia|]. rewrite E.
  rewrite lookup_seq_lt by lia. reflexivity.
Qed.

Lemma alloc_forks len : forall a w,
  length (forks w) = a ->
  evals (comprehension (fun i => Act (NewFork i)) (map Z.of_nat (seq a len))) w
    (map (fun i => EvNewFork i (Z.of_nat i)) (seq a len))
    (Ok (seq a len))
    (set_forks (forks w ++ map table_fork (seq a len)) w).
Proof.
  induction len as [|len IH]; intros a w Ha.
  - cbn. rewrite app_nil_r, set_forks_id. apply evals_ret.
  - cbn [seq map comprehension].
    eapply evals_eq.
    + eapply evals_seq; [apply evals_act; reflexivity|]. cbv beta.
      eapply evals_seq; [apply (IH (S a)); cbn; rewrite length_app; cbn; lia|].
      apply evals_ret.
    + cbn. by rewrite Ha, app_nil_r.
    + by rewrite Ha.
    + cbn. by rewrite <- app_assoc.
Qed.

Section Ring.
Variables (n m : Z) (token : ref).
Hypothesis Hn : (0 < n)%Z.

Lemma new_philosopher_spec w (i : nat) :
  (Z.of_nat i < n)%Z ->
  evals (new_philosopher n m token (seq 0 (Z.to_nat n)) (Z.of_nat i)) w
    [EvNewPhilosopher (length (philosophers w))]
    (Ok (length (philosophers w)))
    (set_philosophers
       (philosophers w
        ++ [Philosopher_init (Z.of_nat i) i (Z.to_nat ((Z.of_nat i + 1) mod n)) m token]) w).
Proof.
  intros Hi. unfold new_philosopher, py_mod.
  rewrite getitem_seq by lia.
  destruct (n =? 0)%Z eqn:E; [apply Z.eqb_eq in E; lia|].
  eapply evals_eq.
  - eapply evals_seq; [apply evals_ret|]. cbv beta.
    eapply evals_seq; [apply evals_ret|]. cbv beta.
    rewrite getitem_seq.
    + eapply evals_seq; [apply evals_ret|]. cbv beta.
      apply evals_act. reflexivity.
    + pose proof (Z.mod_pos_bound (Z.of_nat i + 1) n Hn). lia.
  - reflexivity.
  - reflexivity.
  - cbn. by rewrite Nat2Z.id.
Qed.

Lemma alloc_philosophers len : forall a w,
  (Z.of_nat (a + len) <= n)%Z ->
  length (philosophers w) = a ->
  evals (comprehension (new_philosopher n m token (seq 0 (Z.to_nat n)))
           (map Z.of_nat (seq a len))) w
    (map EvNewPhilosopher (seq a len))
    (Ok (seq a len))
    (set_philosophers
       (philosophers w
        ++ map (fun i => Philosopher_init (Z.of_nat i) i
                           (Z.to_nat ((Z.of_nat i + 1) mod n)) m token) (seq a len)) w).
Proof.
  induction len as [|len IH]; intros a w Hle Ha.
  - cbn. rewrite app_nil_r, set_philosophers_id. apply evals_ret.
  - cbn [seq map comprehension].
    eapply evals_eq.
    + eapply evals_seq; [apply new_philosopher_spec; lia|]. cbv beta.
      eapply evals_seq; [apply (IH (S a)); [lia|cbn; rewrite length_app; cbn; lia]|].
      apply evals_ret.
    + cbn. by rewrite Ha, app_nil_r.
    + by rewrite Ha.
    + cbn. by rewrite <- app_assoc.
Qed.

End Ring.

Lemma start_all todo : forall started w k len,
  philosophers w = started ++ todo ->
  length started = k -> length todo = len ->
  Forall (fun p => ph_thread p = NotStarted) todo ->
  evals (for_each (seq k len) (fun p => Act (ThreadStart p))) w
    (map EvStart (seq k len))
    (Ok tt)
    (set_philosophers (started ++ map (with_thread Running) todo) w).
Proof.
  induction todo as [|p todo IH]; intros started w k len Hw <- <- Hall.
  - simpl. rewrite <- Hw, set_philosophers_id. apply evals_ret.
  - inversion Hall as [|? ? Hp Hall']; subst.
    cbn [length seq map for_each].
    eapply evals_eq.
    + eapply evals_seq.
      * apply evals_act. cbn [sem]. unfold on_phil.
        rewrite Hw, list_lookup_middle by reflexivity. rewrite Hp. reflexivity.
      * cbv beta.
        apply (IH (started ++ [with_thread Running p])); [| |reflexivity|exact Hall'].
        -- cbn. rewrite <- app_assoc. cbn.
           rewrite insert_app_r_alt by lia. by rewrite Nat.sub_diag.
        -- rewrite length_app. cbn. lia.
    + reflexivity.
    + reflexivity.
    + cbn. by rewrite <- app_assoc.
Qed.

Lemma lookup_map_seq {A} (F : nat -> A) len : forall a i,
  i < len -> map F (seq a len) !! i = Some (F (a + i)).
Proof.
  induction len as [|len IH]; intros a [|i] Hi; try lia; cbn [seq map].
  - by rewrite Nat.add_0_r.
  - change (map F (seq (S a) len) !! i = Some (F (a + S i))).
    rewrite (IH (S a) i) by lia. f_equal. f_equal. lia.
Qed.

Lemma lookup_map_seq_ge {A} (F : nat -> A) len a i :
  len <= i -> map F (seq a len) !! i = None.
Proof. intros Hi. apply lookup_ge_None. by rewrite length_map, length_seq. Qed.

Lemma join_running w N ph :
  0 < N ->
  philosophers w !! 0 = Some ph -> ph_thread ph = Running ->
  evals (for_each (seq 0 N) (fun q => Act (ThreadJoin q))) w [] Block w.
Proof.
  intros HN Hp Hr. destruct N as [|N]; [lia|].
  cbn [seq for_each]. apply evals_seq_block.
  apply evals_act_block. cbn [sem]. unfold on_phil. by rewrite Hp, Hr.
Qed.

Lemma main_body_runs n m :
  (0 < n)%Z ->
  evals (main_body n m) empty_world (main_trace n) Block (table_world n m).
Proof.
  intros Hn. unfold main_body, range.
  eapply evals_eq.
  - eapply evals_seq; [apply (@alloc_forks (Z.to_nat n) 0 empty_world eq_refl)|].
    cbv beta.
    eapply evals_seq; [apply evals_act; reflexivity|]. cbv beta.
    eapply evals_seq.
    { apply (@alloc_philosophers n m 0 Hn (Z.to_nat n) 0); [lia|reflexivity]. }
    cbv beta.
    eapply evals_seq; [rewrite getitem_seq by lia; apply evals_ret|]. cbv beta.
    eapply evals_seq.
    { apply evals_act. cbn [sem]. unfold on_phil.
      cbn [philosophers set_philosophers set_events set_forks empty_world app].
      rewrite lookup_map_seq by lia. reflexivity. }
    cbv beta.
    eapply evals_seq; [apply evals_act; reflexivity|]. cbv beta.
    eapply evals_seq.
    { eapply (@start_all (map (table_philosopher n m) (seq 0 (Z.to_nat n)))
                [] _ 0 (Z.to_nat n)); [reflexivity|reflexivity| |].
      - by rewrite length_map, length_seq.
      - apply List.Forall_forall. intros ph Hin. apply in_map_iff in Hin as (i & <- & _).
        reflexivity. }
    cbv beta.
    eapply evals_seq; [apply evals_act; reflexivity|]. cbv beta.
    eapply evals_seq; [apply evals_act; reflexivity|]. cbv beta.
    eapply join_running with (ph := with_thread Running (table_philosopher n m 0));
      [lia| |reflexivity].
    cbn [philosophers set_philosophers set_events set_forks empty_world app].
    rewrite map_map. rewrite lookup_map_seq by lia. reflexivity.
  - unfold main_trace. reflexivity.
  - reflexivity.
  - unfold table_world. cbn.
    rewrite map_map. reflexivity.
Qed.

(** ** Threads side by side *)

Lemma thread_parks w self p fl :
  philosophers w !! self = Some p ->
  (0 < ph_spaghetti p)%Z ->
  events w !! ph_token p = Some true ->
  forks w !! ph_left_fork p = Some fl ->
  fk_lock fl = false ->
  exists t',
    tsteps steps_to_right_fork (Philosopher_run self) w
    = Some (set_forks (<[ph_left_fork p := fork_taken (ph_index p) fl]> (forks w)) w, t') /\
    next_lock t' = Some (ph_right_fork p).
Proof.
  intros Hp Hs Ht Hl Hfl.
  assert (Hpos : (0 <? ph_spaghetti p)%Z = true) by (apply Z.ltb_lt; lia).
  unfold steps_to_right_fork, Philosopher_run, Philosopher_think,
    Philosopher_request_forks, with_, Fork_enter, Fork_exit, Fork_pick_up.
  repeat (cbn [tsteps step sem]; unfold on_phil, on_fork; heap_simpl).
  eexists. split.
  - rewrite !list_insert_insert_eq. reflexivity.
  - reflexivity.
Qed.

Lemma next_lock_blocked {A} (t : Thr A) w f fk :
  next_lock t = Some f -> forks w !! f = Some fk -> fk_lock fk = true ->
  step t w = Blocked.
Proof.
  intros Hn Hf Hl. induction t as [| |R a|A B t1 IH k _|]; try discriminate.
  - destruct a; try discriminate. injection Hn as ->.
    cbn [step sem]. unfold on_fork. by rewrite Hf, Hl.
  - cbn [step]. by rewrite (IH Hn).
Qed.

Lemma run_schedule_app s1 : forall c s2,
  run_schedule c (s1 ++ s2)
  = match run_schedule c s1 with
    | Some c' => run_schedule c' s2
    | None => None
    end.
Proof.
  induction s1 as [|i s1 IH]; intros c s2; [reflexivity|].
  cbn [app run_schedule]. destruct (cstep c i); [apply IH|reflexivity].
Qed.

Lemma run_one_thread k : forall c i t w' t',
  c_threads c !! i = Some t ->
  tsteps k t (c_world c) = Some (w', t') ->
  run_schedule c (replicate k i) = Some (mkConfig w' (<[i := t']> (c_threads c))).
Proof.
  induction k as [|k IH]; intros c i t w' t' Hi Hk.
  - injection Hk as <- <-. cbn. rewrite list_insert_id by done. by destruct c.
  - cbn [replicate run_schedule]. unfold cstep. rewrite Hi.
    cbn [tsteps] in Hk. destruct (step t (c_world c)) as [ev w1 t1| | |]; try discriminate.
    erewrite IH; [|cbn; apply list_lookup_insert_eq; eapply lookup_lt_Some, Hi|exact Hk].
    cbn. by rewrite list_insert_insert_eq.
Qed.

Section Deadlock.
Variables (n m : Z).
Hypothesis Hn : (0 < n)%Z.
Hypothesis Hm : (0 < m)%Z.

Let N := Z.to_nat n.

Lemma right_of_lt i : right_of n i < N.
Proof.
  unfold right_of, N.
  pose proof (Z.mod_pos_bound (Z.of_nat i + 1) n Hn). lia.
Qed.

Lemma parked_world_philosopher j i :
  i < N ->
  philosophers (parked_world n m j) !! i
  = Some (with_thread Running (table_philosopher n m i)).
Proof. intros Hi. cbn. by rewrite lookup_map_seq. Qed.

Lemma parked_world_fork j i :
  i < N -> forks (parked_world n m j) !! i = Some (parked_fork j i).
Proof. intros Hi. cbn. by rewrite lookup_map_seq. Qed.

Lemma parked_world_next j :
  j < N ->
  set_forks (<[j := fork_taken (Z.of_nat j) (table_fork j)]> (forks (parked_world n m j)))
            (parked_world n m j)
  = parked_world n m (S j).
Proof.
  intros Hj. unfold parked_world, set_forks. cbn. f_equal.
  apply list_eq. intros i.
  destruct (decide (i < N)) as [Hi|Hi].
  - destruct (decide (j = i)) as [->|Hne].
    + rewrite list_lookup_insert_eq by (by rewrite length_map, length_seq).
      rewrite lookup_map_seq by exact Hi.
      unfold parked_fork. cbn [Nat.add].
      destruct (Nat.ltb_spec i (S i)); [reflexivity|lia].
    + rewrite list_lookup_insert_ne by exact Hne.
      rewrite !lookup_map_seq by exact Hi.
      unfold parked_fork. cbn [Nat.add].
      destruct (Nat.ltb_spec i j), (Nat.ltb_spec i (S j)); try reflexivity; lia.
  - rewrite lookup_map_seq_ge by (fold N; lia).
    apply lookup_ge_None. rewrite length_insert, length_map, length_seq. fold N. lia.
Qed.

Lemma parked_start : parked n m 0 (table_config n m).
Proof.
  split; [|split; [|split]].
  - cbn. unfold parked_world, table_world, set_forks. cbn. f_equal.
  - cbn. by rewrite length_map, length_seq.
  - intros i Hi. lia.
  - intros i Hi. cbn. rewrite lookup_map_seq by (fold N; lia). reflexivity.
Qed.

Lemma parked_step j c :
  j < N -> parked n m j c ->
  exists c',
    run_schedule c (replicate steps_to_right_fork j) = Some c' /\ parked n m (S j) c'.
Proof.
  intros Hj (Hw & Hlen & Hdone & Htodo).
  destruct (@thread_parks (c_world c) j
              (with_thread Running (table_philosopher n m j)) (table_fork j))
    as (t' & Hsteps & Hnext).
  - rewrite Hw. by apply parked_world_philosopher.
  - exact Hm.
  - by rewrite Hw.
  - change (forks (c_world c) !! j = Some (table_fork j)).
    rewrite Hw, parked_world_fork by exact Hj.
    unfold parked_fork. destruct (Nat.ltb_spec j j); [lia|reflexivity].
  - reflexivity.
  - eexists. split.
    + eapply run_one_thread; [apply Htodo; lia|exact Hsteps].
    + split; [|split; [|split]].
      * cbn. rewrite Hw. by apply parked_world_next.
      * cbn. by rewrite length_insert.
      * intros i Hi. cbn. destruct (decide (j = i)) as [->|Hne].
        -- exists t'. split; [|exact Hnext].
           apply list_lookup_insert_eq. lia.
        -- rewrite list_lookup_insert_ne by exact Hne. apply Hdone. lia.
      * intros i Hi. cbn. rewrite list_lookup_insert_ne by lia. apply Htodo. lia.
Qed.

Lemma parked_all j :
  j <= N ->
  exists c, run_schedule (table_config n m) (park_schedule j) = Some c /\ parked n m j c.
Proof.
  induction j as [|j IH]; intros Hj.
  - exists (table_config n m). split; [reflexivity|apply parked_start].
  - destruct IH as (c & Hrun & Hpark); [lia|].
    destruct (@parked_step j c) as (c' & Hrun' & Hpark'); [lia|exact Hpark|].
    exists c'. split; [|exact Hpark'].
    unfold park_schedule. rewrite seq_S, map_app, concat_app. cbn [map concat].
    rewrite app_nil_r, run_schedule_app. fold (park_schedule j).
    by rewrite Hrun.
Qed.

Lemma parked_deadlocked c : parked n m N c -> deadlocked n c.
Proof.
  intros (Hw & Hlen & Hdone & _). split; [exact Hlen|].
  intros i Hi. destruct (Hdone i Hi) as (t & Ht & Hnext).
  exists t, (with_thread Running (table_philosopher n m i)),
    (fork_taken (Z.of_nat i) (table_fork i)).
  assert (Hfork : forall k, k < N ->
            forks (c_world c) !! k = Some (fork_taken (Z.of_nat k) (table_fork k))).
  { intros k Hk. rewrite Hw, parked_world_fork by exact Hk.
    unfold parked_fork. fold N. destruct (Nat.ltb_spec k N); [reflexivity|lia]. }
  split; [exact Ht|].
  split; [rewrite Hw; by apply parked_world_philosopher|].
  split; [by apply Hfork|].
  split; [reflexivity|]. split; [reflexivity|]. split; [exact Hm|].
  split; [exact Hnext|].
  eapply next_lock_blocked; [exact Hnext|apply Hfork, right_of_lt|reflexivity].
Qed.

Lemma deadlocked_stuck c i : deadlocked n c -> cstep c i = None.
Proof.
  intros [Hlen Hall]. unfold cstep.
  destruct (c_threads c !! i) as [t|] eqn:Ht; [|reflexivity].
  destruct (Hall i) as (t0 & p & fl & Ht0 & _ & _ & _ & _ & _ & _ & Hb).
  { rewrite <- Hlen. by eapply lookup_lt_Some. }
  rewrite Ht in Ht0. injection Ht0 as <-. by rewrite Hb.
Qed.

Lemma deadlocked_forever c c' : deadlocked n c -> reachable c c' -> c' = c.
Proof.
  intros Hd Hr. induction Hr as [|i c1 c2 _ IH Hstep]; [reflexivity|].
  subst c1. by rewrite deadlocked_stuck in Hstep.
Qed.

End Deadlock.

Lemma count_events_app f tr1 tr2 :
  count_events f (tr1 ++ tr2) = count_events f tr1 + count_events f tr2.
Proof. unfold count_events. by rewrite List.filter_app, length_app. Qed.

Lemma count_events_map_none {A} f (g : A -> event) l :
  (forall x, f (g x) = false) -> count_events f (map g l) = 0.
Proof.
  intros H. unfold count_events. induction l as [|x l IH]; [reflexivity|].
  cbn. by rewrite H.
Qed.

(** C6: run from an empty heap, [main] (for any [n > 0] and [m]) builds
    forks [0..n-1] and philosophers [0..n-1], philosopher [i] with left
    fork [i], right fork [(i+1) mod n], budget [m] and the one gate; it
    sets the gate exactly once, before the first [start], starts every
    philosopher, and then waits in [join]. *)
Theorem main_builds_ring n m :
  (0 < n)%Z ->
  exists fuel w tr,
    (forall k, fuel <= k -> exec k (main_body n m) empty_world = mkResult Block w tr) /\
    length (forks w) = Z.to_nat n /\
    length (philosophers w) = Z.to_nat n /\
    events w = [true] /\
    (forall i, i < Z.to_nat n ->
       forks w !! i = Some (Fork_init (Z.of_nat i)) /\
       exists p, philosophers w !! i = Some p /\
         ph_index p = Z.of_nat i /\
         ph_left_fork p = i /\
         Z.of_nat (ph_right_fork p) = ((Z.of_nat i + 1) mod n)%Z /\
         ph_spaghetti p = m /\
         ph_token p = 0 /\
         ph_thread p = Running) /\
    count_events is_set tr = 1 /\
    exists before after,
      tr = before ++ EvSet 0 :: after /\
      count_events is_start before = 0 /\
      count_events is_start after = Z.to_nat n.
Proof.
  intros Hn.
  destruct (evals_exec (main_body_runs m Hn)) as [fuel Hfuel].
  exists fuel, (table_world n m), (main_trace n).
  split; [exact Hfuel|].
  split; [cbn; by rewrite length_map, length_seq|].
  split; [cbn; by rewrite length_map, length_seq|].
  split; [reflexivity|].
  split.
  { intros i Hi. cbn. rewrite !lookup_map_seq by exact Hi. split; [reflexivity|].
    eexists. split; [reflexivity|]. cbn.
    pose proof (Z.mod_pos_bound (Z.of_nat i + 1) n Hn).
    repeat split. lia. }
  split.
  { unfold main_trace. rewrite !count_events_app.
    rewrite !count_events_map_none by reflexivity. reflexivity. }
  exists (map (fun i => EvNewFork i (Z.of_nat i)) (seq 0 (Z.to_nat n))
          ++ [EvNewEvent 0] ++ map EvNewPhilosopher (seq 0 (Z.to_nat n))),
         (map EvStart (seq 0 (Z.to_nat n)) ++ [EvRender; EvRender]).
  split; [unfold main_trace; by rewrite <- !app_assoc|].
  split.
  - rewrite !count_events_app, !count_events_map_none by reflexivity. reflexivity.
  - rewrite count_events_app. unfold count_events at 1.
    rewrite List.forallb_filter_id.
    + rewrite length_map, length_seq. cbn. lia.
    + apply forallb_forall. intros e He. apply in_map_iff in He as (i & <- & _).
      reflexivity.
Qed.

Lemma main_builds_ring_witness :
  exists fuel w tr,
    (forall k, fuel <= k -> exec k main empty_world = mkResult Block w tr) /\
    length (forks w) = 5 /\
    length (philosophers w) = 5 /\
    count_events is_set tr = 1.
Proof.
  destruct (@main_builds_ring 5 7 ltac:(lia))
    as (fuel & w & tr & H1 & H2 & H3 & _ & _ & H4 & _).
  exists fuel, w, tr. auto.
Defined.

(** C10: from the table [main] lays (any [n >= 1] philosophers with a
    budget [m >= 1]) there is a schedule after which every philosopher
    holds its left fork and is blocked in the acquisition of its right
    fork; no thread can take a step from there, so every later
    configuration is this same one and no run ends. *)
Theorem ring_deadlock_reachable n m :
  (0 < n)%Z -> (0 < m)%Z ->
  exists sched c,
    run_schedule (table_config n m) sched = Some c /\
    deadlocked n c /\
    (forall i, cstep c i = None) /\
    (forall c', reachable c c' -> c' = c).
Proof.
  intros Hn Hm.
  destruct (@parked_all n m Hn Hm (Z.to_nat n)) as (c & Hrun & Hpark); [lia|].
  pose proof (@parked_deadlocked n m Hn Hm c Hpark) as Hd.
  exists (park_schedule (Z.to_nat n)), c.
  split; [exact Hrun|]. split; [exact Hd|]. split.
  - intros i. by eapply deadlocked_stuck.
  - intros c'. by eapply deadlocked_forever.
Qed.

Lemma ring_deadlock_reachable_witness :
  exists sched c,
    run_schedule (table_config 5 7) sched = Some c /\
    deadlocked 5 c /\
    (forall i, cstep c i = None) /\
    (forall c', reachable c c' -> c' = c).
Proof.
  apply (@ring_deadlock_reachable 5 7); lia.
Defined.




(** * Further properties of the code *)

(** Run a program whose parts may block or raise. *)
Ltac run_any :=
  lazymatch goal with
  | |- evals (Seq _ _) _ _ _ _ =>
      first [ eapply evals_seq; [solve [run_any] | cbv beta; run_any]
            | eapply evals_seq_block; solve [run_any]
            | eapply evals_seq_raise; solve [run_any] ]
  | |- evals (Ret _) _ _ _ _ => apply evals_ret
  | |- evals (Throw _) _ _ _ _ => apply evals_throw
  | |- evals (Act _) _ _ _ _ =>
      (eapply evals_act + eapply evals_act_raise + eapply evals_act_block);
      cbn [sem]; unfold on_fork, on_phil; heap_simpl; reflexivity
  | |- evals (if true then _ else _) _ _ _ _ => cbv iota; run_any
  | |- evals (if false then _ else _) _ _ _ _ => cbv iota; run_any
  end.

(** X1: [pick_up] on a fork whose lock is taken does not return and
    changes nothing: the owner and the held flag of a held fork cannot be
    overwritten by a second [pick_up]. *)
Theorem pick_up_held_blocks w f fk by_ :
  forks w !! f = Some fk ->
  fk_lock fk = true ->
  exists fuel, forall n, fuel <= n ->
    exec n (Fork_pick_up f by_) w = mkResult Block w [].
Proof.
  intros Hf Hl. apply evals_exec. by eapply Fork_pick_up_locked.
Qed.

Lemma pick_up_held_blocks_witness :
  exists fuel, forall n, fuel <= n ->
    exec n (Fork_pick_up 1 0) contended_world = mkResult Block contended_world [].
Proof.
  apply (@pick_up_held_blocks contended_world 1 (fork_taken 1 (Fork_init 1)) 0);
    reflexivity.
Defined.

(** X2: [pick_up] followed by [put_down] on a free fork returns and leaves
    the fork unlocked, not picked up and without owner; if the fork was
    clean before, the whole world is as it was. *)
Theorem pick_up_put_down_round_trip w f fk by_ :
  forks w !! f = Some fk ->
  fk_lock fk = false ->
  exists fuel w',
    (forall n, fuel <= n ->
       exec n (Fork_pick_up f by_ ;; Fork_put_down f) w
       = mkResult (Ok tt) w' (acquire_trace f by_ ++ release_trace f)) /\
    w' = set_forks (<[f := fork_put fk]> (forks w)) w /\
    (fork_clean fk -> w' = w).
Proof.
  intros Hf Hl.
  assert (He : evals (Fork_pick_up f by_ ;; Fork_put_down f) w
                 (acquire_trace f by_ ++ release_trace f) (Ok tt)
                 (set_forks (<[f := fork_put fk]> (forks w)) w)).
  { eapply evals_eq.
    - eapply evals_seq; [by eapply Fork_pick_up_free|]. cbv beta.
      eapply Fork_put_down_locked with (fk := fork_taken by_ fk); heap_simpl; reflexivity.
    - reflexivity.
    - reflexivity.
    - cbn. by rewrite list_insert_insert_eq. }
  destruct (evals_exec He) as [fuel Hfuel].
  exists fuel. eexists. split; [exact Hfuel|]. split; [reflexivity|].
  intros (_ & Hp & Ho).
  replace (fork_put fk) with fk.
  - rewrite list_insert_id by exact Hf. apply set_forks_id.
  - destruct fk as [i l pu o]. cbn in *. subst. reflexivity.
Qed.

Lemma pick_up_put_down_round_trip_witness :
  exists fuel w',
    (forall n, fuel <= n ->
       exec n (Fork_pick_up 1 0 ;; Fork_put_down 1) (resting_world 7)
       = mkResult (Ok tt) w' (acquire_trace 1 0 ++ release_trace 1)) /\
    w' = resting_world 7.
Proof.
  destruct (@pick_up_put_down_round_trip (resting_world 7) 1 (Fork_init 1) 0
              eq_refl eq_refl) as (fuel & w' & H1 & _ & H3).
  exists fuel, w'. split; [exact H1|]. apply H3. repeat split.
Defined.

(** Left fork free, right fork not to be had: [request_forks] takes the
    left one and blocks. *)
Lemma request_forks_blocked w self p fl fr :
  philosophers w !! self = Some p ->
  events w !! ph_token p = Some true ->
  forks w !! ph_left_fork p = Some fl ->
  forks w !! ph_right_fork p = Some fr ->
  fk_lock fl = false ->
  ph_right_fork p = ph_left_fork p \/ fk_lock fr = true ->
  evals (Philosopher_request_forks self) w
    (EvWait (ph_token p) :: acquire_trace (ph_left_fork p) (ph_index p))
    Block
    (set_forks (<[ph_left_fork p := fork_taken (ph_index p) fl]> (forks w)) w).
Proof.
  intros Hp Ht Hl Hr Hfl Hcase.
  unfold Philosopher_request_forks, with_, Fork_enter, Fork_exit, Fork_pick_up.
    destruct Hcase as [Heq|Hfr].
    - destruct p as [idx l r s e tok th]. cbn in *. subst r.
      assert (fr = fl) by congruence. subst fr. clear Hr.
      eapply evals_eq; [run_any| | |]; try reflexivity.
      cbn. by rewrite !list_insert_insert_eq.
    - assert (Hne : ph_left_fork p <> ph_right_fork p) by congruence.
      eapply evals_eq; [run_any| | |]; try reflexivity.
      cbn. by rewrite !list_insert_insert_eq.
Qed.

(** X3: hold and wait.  When its left fork is free but its right fork is
    taken, or is the very same fork as the left one, [request_forks]
    takes the left fork and then stays blocked in the acquisition of the
    right fork; it never gives the left fork back. *)
Theorem request_forks_holds_left_and_waits w self p fl fr :
  philosophers w !! self = Some p ->
  events w !! ph_token p = Some true ->
  forks w !! ph_left_fork p = Some fl ->
  forks w !! ph_right_fork p = Some fr ->
  fk_lock fl = false ->
  ph_right_fork p = ph_left_fork p \/ fk_lock fr = true ->
  exists fuel w',
    (forall n, fuel <= n ->
       exec n (Philosopher_request_forks self) w
       = mkResult Block w'
           (EvWait (ph_token p) :: acquire_trace (ph_left_fork p) (ph_index p))) /\
    w' = set_forks (<[ph_left_fork p := fork_taken (ph_index p) fl]> (forks w)) w /\
    forks w' !! ph_left_fork p = Some (fork_taken (ph_index p) fl) /\
    release_order (EvWait (ph_token p) :: acquire_trace (ph_left_fork p) (ph_index p)) = [].
Proof.
  intros Hp Ht Hl Hr Hfl Hcase.
  pose proof (@request_forks_blocked w self p fl fr Hp Ht Hl Hr Hfl Hcase) as He.
  destruct (evals_exec He) as [fuel Hfuel].
  exists fuel. eexists. split; [exact Hfuel|]. split; [reflexivity|].
  split; [heap_simpl; reflexivity|reflexivity].
Qed.

Lemma request_forks_holds_left_and_waits_witness :
  (exists fuel w',
     (forall n, fuel <= n ->
        exec n (Philosopher_request_forks 0) contended_world
        = mkResult Block w' (EvWait 0 :: acquire_trace 0 0)) /\
     forks w' !! 0 = Some (fork_taken 0 (Fork_init 0))) /\
  (exists fuel w',
     (forall n, fuel <= n ->
        exec n (Philosopher_request_forks 0) (table_world 1 7)
        = mkResult Block w' (EvWait 0 :: acquire_trace 0 0)) /\
     forks w' !! 0 = Some (fork_taken 0 (Fork_init 0))).
Proof.
  split.
  - destruct (@request_forks_holds_left_and_waits contended_world 0
                (with_thread Running (Philosopher_init 0 0 1 7 0))
                (Fork_init 0) (fork_taken 1 (Fork_init 1))
                eq_refl eq_refl eq_refl eq_refl eq_refl (or_intror eq_refl))
      as (fuel & w' & H1 & _ & H3 & _).
    exists fuel, w'. split; [exact H1|exact H3].
  - destruct (@request_forks_holds_left_and_waits (table_world 1 7) 0
                (with_thread Running (table_philosopher 1 7 0))
                (Fork_init 0) (Fork_init 0)
                eq_refl eq_refl eq_refl eq_refl eq_refl (or_introl eq_refl))
      as (fuel & w' & H1 & _ & H3 & _).
    exists fuel, w'. split; [exact H1|exact H3].
Defined.

Lemma insert_back_two {A} (l : list A) i j x y a b :
  i <> j -> l !! i = Some a -> l !! j = Some b ->
  <[j := b]> (<[i := a]> (<[j := y]> (<[i := x]> l))) = l.
Proof.
  intros Hij Hi Hj.
  rewrite (list_insert_insert_ne _ i j a y) by exact Hij.
  rewrite !list_insert_insert_eq.
  rewrite (list_insert_id l i a) by exact Hi.
  by apply list_insert_id.
Qed.

(** A round made without waiting, from clean forks: only the budget changes. *)
Lemma loop_body_exact w self p fl fr :
  ready self p w ->
  forks w !! ph_left_fork p = Some fl -> fork_clean fl ->
  forks w !! ph_right_fork p = Some fr -> fork_clean fr ->
  ph_eating p = false ->
  evals (loop_body self) w (round_trace self p) (Ok tt)
    (set_philosophers
       (<[self := with_spaghetti (ph_spaghetti p - 1)%Z p]> (philosophers w)) w).
Proof.
  intros Hrd Hl Hcl Hr Hcr He.
  destruct (loop_body_spec Hrd) as (w' & Hev & Hrd' & Hevents).
  assert (Hw' : w' = set_philosophers
                  (<[self := with_spaghetti (ph_spaghetti p - 1)%Z p]> (philosophers w)) w).
  { destruct Hrd as [Hp Hlr (fl0 & Hl0 & Hfl0) (fr0 & Hr0 & Hfr0) Ht].
    assert (fl0 = fl) by congruence. assert (fr0 = fr) by congruence. subst fl0 fr0.
    pose proof (request_forks_free w self Hp Hl Hr Hlr Ht Hfl0 Hfr0) as H1.
    set (w1 := set_forks (<[ph_right_fork p := fork_taken (ph_index p) fr]>
                 (<[ph_left_fork p := fork_taken (ph_index p) fl]> (forks w))) w) in *.
    assert (Hp1 : philosophers w1 !! self = Some p) by exact Hp.
    pose proof (eat_spec w1 self Hp1) as H2.
    set (w2 := set_philosophers (<[self := fed p]> (philosophers w1)) w1) in *.
    assert (H3 : evals (Philosopher_put_down_forks self) w2 (put_down_trace p) (Ok tt)
                   (set_forks (<[ph_right_fork p := fork_put (fork_taken (ph_index p) fr)]>
                      (<[ph_left_fork p := fork_put (fork_taken (ph_index p) fl)]>
                         (forks w2))) w2)).
    { eapply evals_eq.
      - eapply put_down_forks_held with (p := fed p); subst w2 w1; heap_simpl; eauto.
      - reflexivity.
      - reflexivity.
      - reflexivity. }
    assert (Hall : evals (loop_body self) w (round_trace self p) (Ok tt)
                     (set_forks (<[ph_right_fork p := fork_put (fork_taken (ph_index p) fr)]>
                        (<[ph_left_fork p := fork_put (fork_taken (ph_index p) fl)]>
                           (forks w2))) w2)).
    { unfold loop_body, Philosopher_think.
      eapply evals_eq.
      - eapply evals_seq; [run_act|]. cbv beta.
        eapply evals_seq; [exact H1|]. cbv beta.
        eapply evals_seq; [exact H2|]. cbv beta. exact H3.
      - reflexivity.
      - reflexivity.
      - reflexivity. }
    destruct (evals_det Hev Hall) as (_ & _ & ->).
    clear Hev Hall H1 H2 H3 Hrd' Hevents Hp1.
    subst w2 w1. unfold set_forks, set_philosophers.
    cbn [forks philosophers events].
    destruct Hcl as (Hl1 & Hl2 & Hl3), Hcr as (Hr1 & Hr2 & Hr3).
    replace (fork_put (fork_taken (ph_index p) fl)) with fl
      by (destruct fl; cbn in *; subst; reflexivity).
    replace (fork_put (fork_taken (ph_index p) fr)) with fr
      by (destruct fr; cbn in *; subst; reflexivity).
    rewrite (insert_back_two _ _ _ Hlr Hl Hr).
    replace (fed p) with (with_spaghetti (ph_spaghetti p - 1)%Z p)
      by (destruct p; cbn in *; subst; reflexivity).
    reflexivity. }
  subst w'. exact Hev.
Qed.

(** X4: one whole round of the loop of [run] (think, request the forks,
    eat, put the forks down), made by a philosopher that does not have to
    wait and whose forks lie clean on the table, changes nothing in the
    world but the philosopher's own [spaghetti], which goes down by one:
    both forks are back on the table as they were. *)
Theorem round_puts_forks_back w self p fl fr :
  ready self p w ->
  forks w !! ph_left_fork p = Some fl -> fork_clean fl ->
  forks w !! ph_right_fork p = Some fr -> fork_clean fr ->
  ph_eating p = false ->
  exists fuel,
    forall n, fuel <= n ->
      exec n (Philosopher_think self ;;
              Philosopher_request_forks self ;;
              Philosopher_eat self ;;
              Philosopher_put_down_forks self) w
      = mkResult (Ok tt)
          (set_philosophers
             (<[self := with_spaghetti (ph_spaghetti p - 1)%Z p]> (philosophers w)) w)
          (round_trace self p).
Proof.
  intros Hrd Hl Hcl Hr Hcr He. apply evals_exec.
  exact (loop_body_exact Hrd Hl Hcl Hr Hcr He).
Qed.

Lemma round_puts_forks_back_witness :
  exists fuel,
    forall n, fuel <= n ->
      exec n (Philosopher_think 0 ;;
              Philosopher_request_forks 0 ;;
              Philosopher_eat 0 ;;
              Philosopher_put_down_forks 0) (resting_world 7)
      = mkResult (Ok tt) (resting_world 6)
          (round_trace 0 (with_thread Running (Philosopher_init 0 0 1 7 0))).
Proof.
  apply (@round_puts_forks_back (resting_world 7) 0 _ (Fork_init 0) (Fork_init 1)
           (ready_resting 7) eq_refl (conj eq_refl (conj eq_refl eq_refl))
           eq_refl (conj eq_refl (conj eq_refl eq_refl)) eq_refl).
Defined.

(** X5: [put_down_forks] by a philosopher whose left fork is not locked
    raises [RuntimeError] in the first [put_down]: the world is unchanged
    and the right fork is not touched, even when the philosopher holds
    it. *)
Theorem put_down_forks_without_left_raises w self p fl :
  philosophers w !! self = Some p ->
  forks w !! ph_left_fork p = Some fl ->
  fk_lock fl = false ->
  exists fuel,
    forall n, fuel <= n ->
      exec n (Philosopher_put_down_forks self) w
      = mkResult (Raise RuntimeError) w [EvRelease (ph_left_fork p)].
Proof.
  intros Hp Hl Hfl. apply evals_exec.
  unfold Philosopher_put_down_forks, Fork_put_down.
  eapply evals_eq; [run_any| | |]; reflexivity.
Qed.

Lemma put_down_forks_without_left_raises_witness :
  exists fuel,
    forall n, fuel <= n ->
      exec n (Philosopher_put_down_forks 0) contended_world
      = mkResult (Raise RuntimeError) contended_world [EvRelease 0].
Proof.
  apply (@put_down_forks_without_left_raises contended_world 0
           (with_thread Running (Philosopher_init 0 0 1 7 0)) (Fork_init 0));
    reflexivity.
Defined.

(** X6: [eat] checks neither that the forks are held nor that food is
    left.  Called for any philosopher it returns normally, whatever the
    state of the forks: [spaghetti] is one less than before (also when it
    was zero or negative), [eating] ends [False], and no fork and no
    event flag is read or written. *)
Theorem eat_is_unconditional w self p :
  philosophers w !! self = Some p ->
  exists fuel w' tr,
    (forall n, fuel <= n -> exec n (Philosopher_eat self) w = mkResult (Ok tt) w' tr) /\
    philosophers w' = <[self := with_eating false (with_spaghetti (ph_spaghetti p - 1)%Z p)]>
                        (philosophers w) /\
    forks w' = forks w /\
    events w' = events w /\
    fork_events tr = [] /\
    eating_writes self tr = [true; false] /\
    spaghetti_writes self tr = [(ph_spaghetti p - 1)%Z].
Proof.
  intros Hp.
  destruct (evals_exec (eat_spec w self Hp)) as [fuel Hfuel].
  exists fuel. eexists. eexists. split; [exact Hfuel|].
  repeat split; cbn; by rewrite ?Nat.eqb_refl.
Qed.

Lemma eat_is_unconditional_witness :
  exists fuel w' tr p',
    (forall n, fuel <= n ->
       exec n (Philosopher_eat 0) (resting_world 0) = mkResult (Ok tt) w' tr) /\
    philosophers w' !! 0 = Some p' /\
    ph_spaghetti p' = (-1)%Z /\
    forks w' = forks (resting_world 0).
Proof.
  destruct (@eat_is_unconditional (resting_world 0) 0 _ eq_refl)
    as (fuel & w' & tr & H1 & H2 & H3 & _).
  exists fuel, w', tr. eexists. split; [exact H1|].
  split; [rewrite H2; reflexivity|]. split; [reflexivity|exact H3].
Defined.

(** X7: with [n <= 0], [main] makes no fork and no philosopher, creates
    the gate, and then raises [IndexError] at [philosophers[0]]: the gate
    is never set and no thread is started. *)
Theorem main_without_philosophers_raises n m :
  (n <= 0)%Z ->
  exists fuel,
    forall k, fuel <= k ->
      exec k (main_body n m) empty_world
      = mkResult (Raise IndexError) (mkWorld [] [] [false]) [EvNewEvent 0].
Proof.
  intros Hn. apply evals_exec.
  unfold main_body, range. replace (Z.to_nat n) with 0 by lia.
  split; [discriminate|]. exists 20. reflexivity.
Qed.

Lemma main_without_philosophers_raises_witness :
  exists fuel,
    forall k, fuel <= k ->
      exec k (main_body 0 7) empty_world
      = mkResult (Raise IndexError) (mkWorld [] [] [false]) [EvNewEvent 0].
Proof.
  apply (@main_without_philosophers_raises 0 7). lia.
Defined.

(** X13: a philosopher that was given the same fork as left and right
    fork (what [main] does when [n = 1]) never eats.  With food left and
    the gate open, [run] thinks, takes the fork, and then stays blocked
    waiting for that same fork: no write to [spaghetti] or [eating] ever
    happens, and the fork stays taken. *)
Theorem run_with_one_fork_never_eats w self p fl :
  philosophers w !! self = Some p ->
  ph_right_fork p = ph_left_fork p ->
  (0 < ph_spaghetti p)%Z ->
  events w !! ph_token p = Some true ->
  forks w !! ph_left_fork p = Some fl ->
  fk_lock fl = false ->
  exists fuel w' tr,
    (forall n, fuel <= n -> exec n (Philosopher_run self) w = mkResult Block w' tr) /\
    eat_count self tr = 0 /\
    spaghetti_writes self tr = [] /\
    philosophers w' = philosophers w /\
    forks w' !! ph_left_fork p = Some (fork_taken (ph_index p) fl).
Proof.
  intros Hp Heq Hs Ht Hl Hfl.
  assert (Hr : forks w !! ph_right_fork p = Some fl) by (by rewrite Heq).
  pose proof (@request_forks_blocked w self p fl fl Hp Ht Hl Hr Hfl (or_introl Heq)) as Hreq.
  assert (He : evals (Philosopher_run self) w
                 (EvSleep :: EvWait (ph_token p)
                    :: acquire_trace (ph_left_fork p) (ph_index p))
                 Block
                 (set_forks (<[ph_left_fork p := fork_taken (ph_index p) fl]> (forks w)) w)).
  { rewrite Philosopher_run_unfold.
    eapply evals_step with (ev := []); [reflexivity|].
    eapply evals_eq.
    - eapply evals_seq; [apply (@loop_cond_spec w self p Hp)|].
      replace (0 <? ph_spaghetti p)%Z with true by (symmetry; apply Z.ltb_lt; lia).
      cbv beta iota. apply evals_seq_block. unfold loop_body, Philosopher_think.
      eapply evals_seq; [run_act|]. cbv beta.
      apply evals_seq_block. exact Hreq.
    - reflexivity.
    - reflexivity.
    - reflexivity. }
  destruct (evals_exec He) as [fuel Hfuel].
  exists fuel. eexists. eexists. split; [exact Hfuel|].
  repeat split. cbn. apply list_lookup_insert_eq. by eapply lookup_lt_Some.
Qed.

Lemma run_with_one_fork_never_eats_witness :
  exists fuel w' tr,
    (forall n, fuel <= n ->
       exec n (Philosopher_run 0) (table_world 1 7) = mkResult Block w' tr) /\
    eat_count 0 tr = 0 /\
    philosophers w' = philosophers (table_world 1 7).
Proof.
  destruct (@run_with_one_fork_never_eats (table_world 1 7) 0
              (with_thread Running (table_philosopher 1 7 0)) (Fork_init 0)
              eq_refl eq_refl ltac:(simpl; lia) eq_refl eq_refl eq_refl)
    as (fuel & w' & tr & H1 & H2 & _ & H4 & _).
  exists fuel, w', tr. auto.
Defined.

(** ** A race between [put_down] and [pick_up] *)

Lemma tsteps_step {A} (t t' : Thr A) w ev w' k r :
  step t w = Stepped ev w' t' -> tsteps k t' w' = r -> tsteps (S k) t w = r.
Proof. intros Hs Hr. cbn [tsteps]. by rewrite Hs. Qed.

(** Let a thread take one step in a world the hypotheses describe. *)
Ltac one_step :=
  eapply tsteps_step;
  [ cbn [step sem]; unfold on_phil, on_fork; heap_simpl; reflexivity | ].

(** Two neighbours, [a] to the left of [b], sharing fork [f].  [a] makes a
    round up to the release of the lock of [f] (70 steps); [b] takes [f]
    (26 steps); [a] finishes [put_down] with [picked_up = False] and
    [owner = -1] (4 steps); [b] takes its right fork and starts to eat
    (24 steps). *)
Lemma neighbours_race w a b ia la sa ea tha ib rb sb eb thb tok f fla ff frb :
  a <> b -> la <> f -> rb <> f ->
  philosophers w !! a = Some (mkPhilosopher ia la f sa ea tok tha) ->
  philosophers w !! b = Some (mkPhilosopher ib f rb sb eb tok thb) ->
  (0 < sa)%Z -> (0 < sb)%Z ->
  events w !! tok = Some true ->
  forks w !! la = Some fla -> fk_lock fla = false ->
  forks w !! f = Some ff -> fk_lock ff = false ->
  forks w !! rb = Some frb -> fk_lock frb = false ->
  exists tA1 w1 tB1 w2 tA2 w3 tB2 w4,
    tsteps 70 (Philosopher_run a) w = Some (w1, tA1) /\
    tsteps 26 (Philosopher_run b) w1 = Some (w2, tB1) /\
    tsteps 4 tA1 w2 = Some (w3, tA2) /\
    tsteps 24 tB1 w3 = Some (w4, tB2) /\
    philosophers w4 !! b = Some (mkPhilosopher ib f rb (sb - 1) true tok thb) /\
    forks w4 !! f = Some (mkFork (fk_index ff) true false (-1)) /\
    forks w4 !! rb = Some (mkFork (fk_index frb) true true ib).
Proof.
  intros Hab Hlaf Hrbf Hpa Hpb Hsa Hsb Ht Hla Hfla Hf Hff Hrb Hfrb.
  assert (Hposa : (0 <? sa)%Z = true) by (apply Z.ltb_lt; lia).
  assert (Hposb : (0 <? sb)%Z = true) by (apply Z.ltb_lt; lia).
  unfold Philosopher_run, Philosopher_think, Philosopher_request_forks,
    Philosopher_eat, Philosopher_put_down_forks, with_, Fork_enter, Fork_exit,
    Fork_pick_up, Fork_put_down.
  destruct (decide (rb = la)) as [->|Hne].
  - assert (frb = fla) by congruence. subst frb. clear Hrb Hfrb.
    do 8 eexists.
    split; [do 70 one_step; reflexivity|].
    split; [do 26 one_step; reflexivity|].
    split; [do 4 one_step; reflexivity|].
    split; [do 24 one_step; reflexivity|].
    split; [heap_simpl; reflexivity|].
    split; heap_simpl; reflexivity.
  - do 8 eexists.
    split; [do 70 one_step; reflexivity|].
    split; [do 26 one_step; reflexivity|].
    split; [do 4 one_step; reflexivity|].
    split; [do 24 one_step; reflexivity|].
    split; [heap_simpl; reflexivity|].
    split; heap_simpl; reflexivity.
Qed.

(** X8: a philosopher can be eating while the fork it holds says it is
    free.  [put_down] releases the lock before it resets [picked_up] and
    [owner], so in a ring of [n >= 2] with budget [m >= 1] there is an
    interleaving after which philosopher 1 is eating, the lock of its
    left fork is taken (by itself), and that fork has [picked_up = False]
    and [owner = -1]: the late assignments of philosopher 0 have wiped
    out what [pick_up] wrote. *)
Theorem eating_with_fork_marked_free n m :
  (2 <= n)%Z -> (1 <= m)%Z ->
  exists c p fl fr,
    run_schedule (table_config n m) race_schedule = Some c /\
    philosophers (c_world c) !! 1 = Some p /\
    ph_eating p = true /\
    forks (c_world c) !! ph_left_fork p = Some fl /\
    fk_lock fl = true /\ fk_picked_up fl = false /\ fk_owner fl = (-1)%Z /\
    forks (c_world c) !! ph_right_fork p = Some fr /\
    fk_lock fr = true /\ fk_picked_up fr = true /\ fk_owner fr = ph_index p.
Proof.
  intros Hn Hm.
  set (rb := Z.to_nat (2 mod n)).
  assert (HN : 2 <= Z.to_nat n) by lia.
  assert (Hrb : rb <> 1 /\ rb < Z.to_nat n).
  { subst rb. pose proof (Z.mod_pos_bound 2 n ltac:(lia)).
    destruct (decide (n = 2%Z)) as [->|Hne]; [rewrite Z_mod_same_full; lia|].
    rewrite Z.mod_small by lia. lia. }
  destruct Hrb as [Hrb1 HrbN].
  assert (Hpa : philosophers (table_world n m) !! 0
                = Some (mkPhilosopher 0 0 1 m false 0 Running)).
  { cbn. rewrite lookup_map_seq by lia.
    unfold table_philosopher, Philosopher_init, with_thread. cbn.
    rewrite Z.mod_small by lia. reflexivity. }
  assert (Hpb : philosophers (table_world n m) !! 1
                = Some (mkPhilosopher 1 1 rb m false 0 Running)).
  { cbn. rewrite lookup_map_seq by lia. reflexivity. }
  assert (Hf : forall i, i < Z.to_nat n ->
                 forks (table_world n m) !! i = Some (table_fork i)).
  { intros i Hi. cbn. by rewrite lookup_map_seq. }
  destruct (@neighbours_race (table_world n m) 0 1 0 0 m false Running 1 rb m false Running
              0 1 (table_fork 0) (table_fork 1) (table_fork rb))
    as (tA1 & w1 & tB1 & w2 & tA2 & w3 & tB2 & w4 & H1 & H2 & H3 & H4 & Hp & Hfl & Hfr);
    try first [lia | reflexivity | assumption | apply Hf; lia].
  set (T := map Philosopher_run (seq 0 (Z.to_nat n))).
  assert (HT : length T = Z.to_nat n) by (subst T; by rewrite length_map, length_seq).
  assert (HT0 : T !! 0 = Some (Philosopher_run 0)) by (subst T; by rewrite lookup_map_seq by lia).
  assert (HT1 : T !! 1 = Some (Philosopher_run 1)) by (subst T; by rewrite lookup_map_seq by lia).
  exists (mkConfig w4 (<[1 := tB2]> (<[0 := tA2]> (<[1 := tB1]> (<[0 := tA1]> T))))).
  eexists. eexists. eexists.
  split.
  { unfold race_schedule. rewrite run_schedule_app.
    rewrite (@run_one_thread 70 (table_config n m) 0 _ w1 tA1 HT0 H1).
    cbn [c_threads c_world table_config]. fold T.
    rewrite run_schedule_app.
    erewrite (@run_one_thread 26 _ 1 _ w2 tB1); [| |exact H2].
    2:{ cbn. by rewrite list_lookup_insert_ne. }
    cbn [c_threads c_world]. rewrite run_schedule_app.
    erewrite (@run_one_thread 4 _ 0 _ w3 tA2); [| |exact H3].
    2:{ cbn. rewrite list_lookup_insert_ne by lia.
        apply list_lookup_insert_eq. lia. }
    cbn [c_threads c_world].
    erewrite (@run_one_thread 24 _ 1 _ w4 tB2); [| |exact H4].
    2:{ cbn. rewrite list_lookup_insert_ne by lia.
        apply list_lookup_insert_eq. rewrite length_insert. lia. }
    cbn [c_threads c_world].
    reflexivity. }
  cbn [c_world]. split; [exact Hp|]. cbn.
  split; [reflexivity|]. split; [exact Hfl|]. cbn.
  split; [reflexivity|]. split; [reflexivity|]. split; [reflexivity|].
  split; [exact Hfr|]. cbn. auto.
Qed.

Lemma eating_with_fork_marked_free_witness :
  exists c p fl fr,
    run_schedule (table_config 5 7) race_schedule = Some c /\
    philosophers (c_world c) !! 1 = Some p /\
    ph_eating p = true /\
    forks (c_world c) !! ph_left_fork p = Some fl /\
    fk_lock fl = true /\ fk_picked_up fl = false /\ fk_owner fl = (-1)%Z /\
    forks (c_world c) !! ph_right_fork p = Some fr /\
    fk_lock fr = true /\ fk_picked_up fr = true /\ fk_owner fr = ph_index p.
Proof.
  apply (@eating_with_fork_marked_free 5 7); lia.
Defined.

(** Two neighbours, [a] to the left of [b], sharing fork [f].  [a] makes a
    round up to [self.picked_up = False] in [put_down] of [f] (72 steps);
    [b] takes [f] and stops before the lock of its right fork (26 steps);
    [a] ends [put_down] with [self.owner = -1] (2 steps). *)
Lemma neighbours_late_reset w a b ia la sa ea tha ib rb sb eb thb tok f fla ff :
  a <> b -> la <> f ->
  philosophers w !! a = Some (mkPhilosopher ia la f sa ea tok tha) ->
  philosophers w !! b = Some (mkPhilosopher ib f rb sb eb tok thb) ->
  (0 < sa)%Z -> (0 < sb)%Z ->
  events w !! tok = Some true ->
  forks w !! la = Some fla -> fk_lock fla = false ->
  forks w !! f = Some ff -> fk_lock ff = false ->
  exists tA1 w1 tB1 w2 tA2 w3,
    tsteps 72 (Philosopher_run a) w = Some (w1, tA1) /\
    tsteps 26 (Philosopher_run b) w1 = Some (w2, tB1) /\
    tsteps 2 tA1 w2 = Some (w3, tA2) /\
    next_lock tB1 = Some rb /\
    philosophers w3 !! a = Some (mkPhilosopher ia la f (sa - 1) false tok tha) /\
    forks w3 !! f = Some (mkFork (fk_index ff) true true (-1)).
Proof.
  intros Hab Hlaf Hpa Hpb Hsa Hsb Ht Hla Hfla Hf Hff.
  assert (Hposa : (0 <? sa)%Z = true) by (apply Z.ltb_lt; lia).
  assert (Hposb : (0 <? sb)%Z = true) by (apply Z.ltb_lt; lia).
  unfold Philosopher_run, Philosopher_think, Philosopher_request_forks,
    Philosopher_eat, Philosopher_put_down_forks, with_, Fork_enter, Fork_exit,
    Fork_pick_up, Fork_put_down.
  do 6 eexists.
  split; [do 72 one_step; reflexivity|].
  split; [do 26 one_step; reflexivity|].
  split; [do 2 one_step; reflexivity|].
  split; [reflexivity|].
  split; heap_simpl; reflexivity.
Qed.

(** C4: the invariant does not survive the threads of [main].
    [put_down] resets [picked_up] and [owner] after it has released the
    lock, so in a ring of [n >= 2] with budget [m >= 1] the
    interleaving [late_reset_schedule] lets philosopher 1 run
    [pick_up(1)] on fork 1 between the two resets of philosopher 0.  When
    both calls have returned (philosopher 0 has eaten and put the fork
    down, philosopher 1 is about to acquire its right fork) fork 1 is
    locked and has [picked_up = True] with [owner = -1], not [1]: it is
    held and has no owner. *)
Theorem fork_invariant_broken_by_late_reset n m :
  (2 <= n)%Z -> (1 <= m)%Z ->
  exists c p0 t1 fk,
    run_schedule (table_config n m) late_reset_schedule = Some c /\
    philosophers (c_world c) !! 0 = Some p0 /\
    ph_spaghetti p0 = (m - 1)%Z /\ ph_eating p0 = false /\
    c_threads c !! 1 = Some t1 /\ next_lock t1 = Some (right_of n 1) /\
    forks (c_world c) !! 1 = Some fk /\
    fk_lock fk = true /\ fk_picked_up fk = true /\ fk_owner fk = (-1)%Z /\
    ~ fork_inv fk /\ ~ forks_inv (c_world c).
Proof.
  intros Hn Hm.
  assert (HN : 2 <= Z.to_nat n) by lia.
  assert (Hpa : philosophers (table_world n m) !! 0
                = Some (mkPhilosopher 0 0 1 m false 0 Running)).
  { cbn. rewrite lookup_map_seq by lia.
    unfold table_philosopher, Philosopher_init, with_thread. cbn.
    rewrite Z.mod_small by lia. reflexivity. }
  assert (Hpb : philosophers (table_world n m) !! 1
                = Some (mkPhilosopher 1 1 (right_of n 1) m false 0 Running)).
  { cbn. rewrite lookup_map_seq by lia. reflexivity. }
  assert (Hf : forall i, i < Z.to_nat n ->
                 forks (table_world n m) !! i = Some (table_fork i)).
  { intros i Hi. cbn. by rewrite lookup_map_seq. }
  destruct (@neighbours_late_reset (table_world n m) 0 1 0 0 m false Running
              1 (right_of n 1) m false Running 0 1 (table_fork 0) (table_fork 1))
    as (tA1 & w1 & tB1 & w2 & tA2 & w3 & H1 & H2 & H3 & Hnext & Hp0 & Hfk);
    try first [lia | reflexivity | assumption | apply Hf; lia].
  set (T := map Philosopher_run (seq 0 (Z.to_nat n))).
  assert (HT : length T = Z.to_nat n) by (subst T; by rewrite length_map, length_seq).
  assert (HT0 : T !! 0 = Some (Philosopher_run 0)) by (subst T; by rewrite lookup_map_seq by lia).
  assert (HT1 : T !! 1 = Some (Philosopher_run 1)) by (subst T; by rewrite lookup_map_seq by lia).
  assert (Hbroken : ~ fork_inv (mkFork (fk_index (table_fork 1)) true true (-1))).
  { intros [Hheld _]. by apply Hheld. }
  exists (mkConfig w3 (<[0 := tA2]> (<[1 := tB1]> (<[0 := tA1]> T)))).
  eexists. exists tB1. eexists.
  split.
  { unfold late_reset_schedule. rewrite run_schedule_app.
    rewrite (@run_one_thread 72 (table_config n m) 0 _ w1 tA1 HT0 H1).
    cbn [c_threads c_world table_config]. fold T.
    rewrite run_schedule_app.
    erewrite (@run_one_thread 26 _ 1 _ w2 tB1); [| |exact H2].
    2:{ cbn. by rewrite list_lookup_insert_ne. }
    cbn [c_threads c_world].
    erewrite (@run_one_thread 2 _ 0 _ w3 tA2); [| |exact H3].
    2:{ cbn. rewrite list_lookup_insert_ne by lia.
        apply list_lookup_insert_eq. lia. }
    cbn [c_threads c_world].
    reflexivity. }
  cbn [c_world c_threads].
  split; [exact Hp0|]. split; [reflexivity|]. split; [reflexivity|].
  split.
  { rewrite list_lookup_insert_ne by lia.
    apply list_lookup_insert_eq. rewrite length_insert. lia. }
  split; [exact Hnext|]. split; [exact Hfk|].
  split; [reflexivity|]. split; [reflexivity|]. split; [reflexivity|].
  split; [exact Hbroken|].
  intros Hall. exact (Hbroken (Hall 1 _ Hfk)).
Qed.

Lemma fork_invariant_broken_by_late_reset_witness :
  exists c p0 t1 fk,
    run_schedule (table_config 5 7) late_reset_schedule = Some c /\
    philosophers (c_world c) !! 0 = Some p0 /\
    ph_spaghetti p0 = 6%Z /\ ph_eating p0 = false /\
    c_threads c !! 1 = Some t1 /\ next_lock t1 = Some 2 /\
    forks (c_world c) !! 1 = Some fk /\
    fk_lock fk = true /\ fk_picked_up fk = true /\ fk_owner fk = (-1)%Z /\
    ~ fork_inv fk /\ ~ forks_inv (c_world c).
Proof.
  apply (@fork_invariant_broken_by_late_reset 5 7); lia.
Defined.

(** ** A run in which everybody finishes *)

Lemma step_returned {A} (t : Thr A) w a : step t w = Returned a -> t = Ret a.
Proof.
  revert a. destruct t as [A a0|A e|R act|A B t1 k|c b]; intros a H; cbn in H.
  - by injection H as ->.
  - discriminate.
  - destruct (sem act w); discriminate.
  - destruct (step t1 w); discriminate.
  - discriminate.
Qed.

(** A run that returns is a finite number of steps to [Ret]. *)
Lemma exec_tsteps {A} n : forall (t : Thr A) w a w' tr,
  exec n t w = mkResult (Ok a) w' tr ->
  exists k, tsteps k t w = Some (w', Ret a).
Proof.
  induction n as [|n IH]; intros t w a w' tr H; [discriminate|].
  cbn [exec] in H. destruct (step t w) as [ev w1 t1| |a0|e] eqn:Hs; try discriminate.
  - apply emit_inv in H as (tr' & H & _).
    destruct (IH _ _ _ _ _ H) as [k Hk].
    exists (S k). cbn [tsteps]. by rewrite Hs.
  - injection H as -> -> _. exists 0. cbn. by rewrite (step_returned _ _ Hs).
Qed.

Lemma run_exact self k : forall w p fl fr,
  ready self p w ->
  forks w !! ph_left_fork p = Some fl -> fork_clean fl ->
  forks w !! ph_right_fork p = Some fr -> fork_clean fr ->
  ph_eating p = false ->
  ph_spaghetti p = Z.of_nat k ->
  evals (Philosopher_run self) w (run_trace self p k) (Ok tt)
    (set_philosophers (<[self := with_spaghetti 0 p]> (philosophers w)) w).
Proof.
  induction k as [|k IH]; intros w p fl fr Hrd Hl Hcl Hr Hcr He Hs.
  - rewrite Philosopher_run_unfold. apply evals_while_false.
    eapply evals_eq; [apply loop_cond_spec, Hrd|reflexivity| |].
    + by rewrite Hs.
    + replace (with_spaghetti 0 p) with p by (destruct p; cbn in *; by subst).
      rewrite list_insert_id by apply Hrd. by rewrite set_philosophers_id.
  - pose proof (loop_body_exact Hrd Hl Hcl Hr Hcr He) as Hbody.
    set (p1 := with_spaghetti (ph_spaghetti p - 1)%Z p) in *.
    set (w1 := set_philosophers (<[self := p1]> (philosophers w)) w) in *.
    assert (Hrd1 : ready self p1 w1).
    { destruct Hrd as [Hp Hlr Hfl Hfr Ht]. split; try assumption.
      subst w1. cbn. apply list_lookup_insert_eq. by eapply lookup_lt_Some. }
    pose proof (IH w1 p1 fl fr Hrd1 Hl Hcl Hr Hcr He ltac:(subst p1; cbn; lia)) as Hrest.
    rewrite Philosopher_run_unfold in *.
    eapply evals_eq; [eapply evals_while_true|..].
    + eapply evals_eq; [apply loop_cond_spec, Hrd|reflexivity| |reflexivity].
      rewrite Hs. reflexivity.
    + exact Hbody.
    + exact Hrest.
    + cbn [run_trace app]. f_equal. f_equal.
      subst p1. destruct p; cbn in *; by subst.
    + reflexivity.
    + subst w1 p1. cbn. by rewrite list_insert_insert_eq.
Qed.

Section Finish.
Variables (n m : Z).
Hypothesis Hn : (2 <= n)%Z.
Hypothesis Hm : (0 <= m)%Z.

Lemma right_neighbour_differs i : i < Z.to_nat n -> right_of n i <> i.
Proof.
  intros Hi. unfold right_of.
  destruct (decide (Z.of_nat i + 1 = n)%Z) as [E|E].
  - rewrite E, Z_mod_same_full. lia.
  - rewrite Z.mod_small by lia. lia.
Qed.

Lemma done_world_next j :
  j < Z.to_nat n ->
  set_philosophers (<[j := with_spaghetti 0 (seated n m j)]> (philosophers (done_world n m j)))
                   (done_world n m j)
  = done_world n m (S j).
Proof.
  intros Hj. unfold done_world, set_philosophers. cbn. f_equal.
  apply list_eq. intros i.
  destruct (decide (i < Z.to_nat n)) as [Hi|Hi].
  - destruct (decide (j = i)) as [->|Hne].
    + rewrite list_lookup_insert_eq by (by rewrite length_map, length_seq).
      rewrite lookup_map_seq by exact Hi.
      unfold done_philosopher. cbn [Nat.add].
      destruct (Nat.ltb_spec i (S i)); [reflexivity|lia].
    + rewrite list_lookup_insert_ne by exact Hne.
      rewrite !lookup_map_seq by exact Hi.
      unfold done_philosopher. cbn [Nat.add].
      destruct (Nat.ltb_spec i j), (Nat.ltb_spec i (S j)); try reflexivity; lia.
  - rewrite lookup_map_seq_ge by lia.
    apply lookup_ge_None. rewrite length_insert, length_map, length_seq. lia.
Qed.

Lemma done_step j c :
  j < Z.to_nat n -> all_done n m j c ->
  exists k c', run_schedule c (replicate k j) = Some c' /\ all_done n m (S j) c'.
Proof.
  intros Hj (Hw & Hlen & Hdone & Htodo).
  assert (Hp : philosophers (c_world c) !! j = Some (seated n m j)).
  { rewrite Hw. cbn. rewrite lookup_map_seq by exact Hj.
    unfold done_philosopher. cbn [Nat.add].
    destruct (Nat.ltb_spec j j); [lia|reflexivity]. }
  assert (Hf : forall i, i < Z.to_nat n -> forks (c_world c) !! i = Some (table_fork i)).
  { intros i Hi. rewrite Hw. cbn. by rewrite lookup_map_seq. }
  assert (Hrd : ready j (seated n m j) (c_world c)).
  { split.
    - exact Hp.
    - cbn. fold (right_of n j). intros E. by apply (right_neighbour_differs Hj).
    - exists (table_fork j). split; [by apply Hf|reflexivity].
    - exists (table_fork (right_of n j)). split; [|reflexivity].
      apply Hf. apply right_of_lt. lia.
    - by rewrite Hw. }
  destruct (@run_exact j (Z.to_nat m) (c_world c) (seated n m j)
              (table_fork j) (table_fork (right_of n j))) as [_ [fuel Hexec]].
  - exact Hrd.
  - by apply Hf.
  - repeat split.
  - apply Hf. apply right_of_lt. lia.
  - repeat split.
  - reflexivity.
  - cbn. lia.
  - destruct (exec_tsteps _ _ _ Hexec) as [k Hk].
    exists k. eexists. split.
    + eapply run_one_thread; [apply Htodo; lia|exact Hk].
    + split; [|split; [|split]].
      * cbn. rewrite Hw. by apply done_world_next.
      * cbn. by rewrite length_insert.
      * intros i Hi. cbn. destruct (decide (j = i)) as [->|Hne].
        -- apply list_lookup_insert_eq. lia.
        -- rewrite list_lookup_insert_ne by exact Hne. apply Hdone. lia.
      * intros i Hi. cbn. rewrite list_lookup_insert_ne by lia. apply Htodo. lia.
Qed.

Lemma done_all j :
  j <= Z.to_nat n ->
  exists sched c, run_schedule (table_config n m) sched = Some c /\ all_done n m j c.
Proof.
  induction j as [|j IH]; intros Hj.
  - exists [], (table_config n m). split; [reflexivity|].
    split; [|split; [|split]].
    + cbn. unfold done_world, table_world, set_philosophers. cbn. f_equal.
    + cbn. by rewrite length_map, length_seq.
    + intros i Hi. lia.
    + intros i Hi. cbn. rewrite lookup_map_seq by lia. reflexivity.
  - destruct IH as (sched & c & Hrun & Hdone); [lia|].
    destruct (@done_step j c) as (k & c' & Hrun' & Hdone'); [lia|exact Hdone|].
    exists (sched ++ replicate k j), c'. split; [|exact Hdone'].
    by rewrite run_schedule_app, Hrun.
Qed.

End Finish.

(** X9: the deadlock is not forced.  In a ring of [n >= 2] with any
    budget [m >= 0] there is also a schedule under which every
    philosopher thread returns: all budgets are 0, nobody is eating, and
    the forks are all back on the table as [main] laid them. *)
Theorem everyone_can_finish n m :
  (2 <= n)%Z -> (0 <= m)%Z ->
  exists sched c,
    run_schedule (table_config n m) sched = Some c /\
    forks (c_world c) = forks (table_world n m) /\
    (forall i, i < Z.to_nat n ->
       c_threads c !! i = Some (Ret tt) /\
       exists p, philosophers (c_world c) !! i = Some p /\
         ph_spaghetti p = 0%Z /\ ph_eating p = false) /\
    (forall i, cstep c i = None).
Proof.
  intros Hn Hm.
  destruct (@done_all n m Hn Hm (Z.to_nat n)) as (sched & c & Hrun & Hw & Hlen & Hdone & _);
    [lia|].
  exists sched, c. split; [exact Hrun|]. split; [by rewrite Hw|]. split.
  - intros i Hi. split; [by apply Hdone|].
    exists (with_spaghetti 0 (seated n m i)). rewrite Hw. cbn.
    rewrite lookup_map_seq by exact Hi. unfold done_philosopher. cbn [Nat.add].
    destruct (Nat.ltb_spec i (Z.to_nat n)); [by repeat split|lia].
  - intros i. unfold cstep.
    destruct (c_threads c !! i) as [t|] eqn:Ht; [|reflexivity].
    assert (Hi : i < Z.to_nat n) by (rewrite <- Hlen; by eapply lookup_lt_Some).
    rewrite (Hdone i Hi) in Ht. by injection Ht as <-.
Qed.

Lemma everyone_can_finish_witness :
  exists sched c,
    run_schedule (table_config 5 7) sched = Some c /\
    forks (c_world c) = forks (table_world 5 7) /\
    (forall i, i < 5 ->
       c_threads c !! i = Some (Ret tt) /\
       exists p, philosophers (c_world c) !! i = Some p /\
         ph_spaghetti p = 0%Z /\ ph_eating p = false) /\
    (forall i, cstep c i = None).
Proof.
  apply (@everyone_can_finish 5 7); lia.
Defined.

(** ** What no step changes *)

Lemma keeps_refl w : keeps w w.
Proof. split; [|split]; eauto 10. Qed.

Lemma keeps_trans w1 w2 w3 : keeps w1 w2 -> keeps w2 w3 -> keeps w1 w3.
Proof.
  intros (E1 & P1 & F1) (E2 & P2 & F2). split; [|split].
  - eauto.
  - intros i p Hp. destruct (P1 _ _ Hp) as (p' & Hp' & ? & ? & ? & ?).
    destruct (P2 _ _ Hp') as (p'' & Hp'' & ? & ? & ? & ?).
    exists p''. repeat split; congruence.
  - intros f fk Hf. destruct (F1 _ _ Hf) as (fk' & Hf' & ?).
    destruct (F2 _ _ Hf') as (fk'' & Hf'' & ?).
    exists fk''. split; congruence.
Qed.

Lemma keeps_set_fork w f fk fk' :
  forks w !! f = Some fk -> fk_index fk' = fk_index fk ->
  keeps w (set_forks (<[f := fk']> (forks w)) w).
Proof.
  intros Hf Hi. split; [|split]; cbn; eauto 10.
  intros g gk Hg. destruct (decide (f = g)) as [<-|Hne].
  - exists fk'. split; [apply list_lookup_insert_eq; by eapply lookup_lt_Some|congruence].
  - exists gk. split; [by rewrite list_lookup_insert_ne|reflexivity].
Qed.

Lemma keeps_set_philosopher w i p p' :
  philosophers w !! i = Some p ->
  ph_index p' = ph_index p -> ph_left_fork p' = ph_left_fork p ->
  ph_right_fork p' = ph_right_fork p -> ph_token p' = ph_token p ->
  keeps w (set_philosophers (<[i := p']> (philosophers w)) w).
Proof.
  intros Hp H1 H2 H3 H4. split; [|split]; cbn; eauto 10.
  intros j q Hq. destruct (decide (i = j)) as [<-|Hne].
  - exists p'. split; [apply list_lookup_insert_eq; by eapply lookup_lt_Some|].
    repeat split; congruence.
  - exists q. split; [by rewrite list_lookup_insert_ne|done].
Qed.

Lemma sem_keeps {R} (a : action R) w ev r w' :
  sem a w = AOk ev r w' -> keeps w w'.
Proof.
  destruct a; cbn [sem]; unfold on_fork, on_phil; intros H.
  - injection H as <- <- <-. split; [|split]; cbn; eauto 10.
    intros f fk Hf. exists fk. split; [by apply lookup_app_l_Some|reflexivity].
  - injection H as <- <- <-. split; [|split]; cbn; eauto 10.
    intros t Ht. by apply lookup_app_l_Some.
  - injection H as <- <- <-. split; [|split]; cbn; eauto 10.
    intros i p Hp. exists p. split; [by apply lookup_app_l_Some|done].
  - destruct (forks w !! f) as [fk|] eqn:Hf; [|discriminate].
    destruct (fk_lock fk); [discriminate|]. injection H as <- <- <-.
    by eapply keeps_set_fork.
  - destruct (forks w !! f) as [fk|] eqn:Hf; [|discriminate].
    destruct (fk_lock fk); [|discriminate]. injection H as <- <- <-.
    by eapply keeps_set_fork.
  - destruct (forks w !! f) as [fk|] eqn:Hf; [|discriminate].
    injection H as <- <- <-. by eapply keeps_set_fork.
  - destruct (forks w !! f) as [fk|] eqn:Hf; [|discriminate].
    injection H as <- <- <-. by eapply keeps_set_fork.
  - destruct (events w !! t) as [[|]|]; try discriminate.
    injection H as <- <- <-. apply keeps_refl.
  - destruct (events w !! t) as [b|] eqn:Ht; [|discriminate].
    injection H as <- <- <-. split; [|split]; cbn; eauto 10.
    intros u Hu. destruct (decide (t = u)) as [<-|Hne].
    + apply list_lookup_insert_eq. by eapply lookup_lt_Some.
    + by rewrite list_lookup_insert_ne.
  - injection H as <- <- <-. apply keeps_refl.
  - destruct (philosophers w !! p); [|discriminate]. injection H as <- <- <-. apply keeps_refl.
  - destruct (philosophers w !! p); [|discriminate]. injection H as <- <- <-. apply keeps_refl.
  - destruct (philosophers w !! p); [|discriminate]. injection H as <- <- <-. apply keeps_refl.
  - destruct (philosophers w !! p); [|discriminate]. injection H as <- <- <-. apply keeps_refl.
  - destruct (philosophers w !! p); [|discriminate]. injection H as <- <- <-. apply keeps_refl.
  - destruct (philosophers w !! p) as [ph|] eqn:Hp; [|discriminate].
    injection H as <- <- <-. by eapply keeps_set_philosopher.
  - destruct (philosophers w !! p) as [ph|] eqn:Hp; [|discriminate].
    injection H as <- <- <-. by eapply keeps_set_philosopher.
  - destruct (philosophers w !! p) as [ph|] eqn:Hp; [|discriminate].
    destruct (ph_thread ph); try discriminate.
    injection H as <- <- <-. by eapply keeps_set_philosopher.
  - destruct (philosophers w !! p) as [ph|] eqn:Hp; [|discriminate].
    destruct (ph_thread ph); try discriminate.
    injection H as <- <- <-. apply keeps_refl.
  - injection H as <- <- <-. apply keeps_refl.
Qed.

Lemma step_keeps {A} (t : Thr A) w ev w' t' :
  step t w = Stepped ev w' t' -> keeps w w'.
Proof.
  revert ev w' t'.
  induction t as [A a|A e|R a|A B t1 IH k _|c _ b _]; intros ev w' t' H; cbn [step] in H.
  - discriminate.
  - discriminate.
  - destruct (sem a w) as [ev0 r w0|ev0 e|] eqn:Hs; try discriminate.
    + injection H as <- <- _. by eapply sem_keeps.
    + injection H as <- <- _. apply keeps_refl.
  - destruct (step t1 w) as [ev1 w1 t1'| |a|e] eqn:Hs; try discriminate.
    + injection H as <- <- _. by eapply IH.
    + injection H as <- <- _. apply keeps_refl.
    + injection H as <- <- _. apply keeps_refl.
  - injection H as <- <- _. apply keeps_refl.
Qed.

Lemma reachable_keeps c c' : reachable c c' -> keeps (c_world c) (c_world c').
Proof.
  induction 1 as [|i c1 c2 _ IH Hstep]; [apply keeps_refl|].
  eapply keeps_trans; [exact IH|].
  unfold cstep in Hstep.
  destruct (c_threads c1 !! i) as [t|]; [|discriminate].
  destruct (step t (c_world c1)) as [ev w' t'| | |] eqn:Hs; try discriminate.
  injection Hstep as <-. by eapply step_keeps.
Qed.

Lemma reachable_step_first c c1 c2 i :
  cstep c i = Some c1 -> reachable c1 c2 -> reachable c c2.
Proof.
  intros Hs Hr. induction Hr as [|k c3 c4 _ IH Hk].
  - eapply reach_step; [constructor|exact Hs].
  - eapply reach_step; [exact IH|exact Hk].
Qed.

Lemma run_schedule_reachable sched : forall c c',
  run_schedule c sched = Some c' -> reachable c c'.
Proof.
  induction sched as [|i sched IH]; intros c c' H; cbn in H.
  - injection H as <-. constructor.
  - destruct (cstep c i) as [c1|] eqn:Hs; [|discriminate].
    eapply reachable_step_first; eauto.
Qed.

(** X10: whatever the interleaving, the table stays as [main] laid it:
    in every configuration reachable from it the gate is still set,
    philosopher [i] still has index [i], left fork [i], right fork
    [(i+1) mod n] and the one gate, and fork [i] still has index [i].  So
    a philosopher never waits at the gate once the threads run; it can
    only wait for a fork. *)
Theorem table_is_never_rewired n m c i :
  reachable (table_config n m) c ->
  i < Z.to_nat n ->
  events (c_world c) !! 0 = Some true /\
  (exists p, philosophers (c_world c) !! i = Some p /\
     ph_index p = Z.of_nat i /\ ph_left_fork p = i /\
     ph_right_fork p = right_of n i /\ ph_token p = 0 /\
     sem (EventWait (ph_token p)) (c_world c) = AOk [EvWait 0] true (c_world c)) /\
  (exists fk, forks (c_world c) !! i = Some fk /\ fk_index fk = Z.of_nat i).
Proof.
  intros Hr Hi. destruct (reachable_keeps Hr) as (He & Hp & Hf).
  assert (Hgate : events (c_world c) !! 0 = Some true) by (apply He; reflexivity).
  split; [exact Hgate|]. split.
  - destruct (Hp i (seated n m i)) as (p & Hp' & H1 & H2 & H3 & H4).
    { cbn. by rewrite lookup_map_seq. }
    exists p. repeat split; try assumption.
    rewrite H4. cbn. by rewrite Hgate.
  - destruct (Hf i (table_fork i)) as (fk & Hfk & Hidx).
    { cbn. by rewrite lookup_map_seq. }
    exists fk. split; assumption.
Qed.

Lemma table_is_never_rewired_witness :
  events (c_world (table_config 5 7)) !! 0 = Some true /\
  (exists p, philosophers (c_world (table_config 5 7)) !! 4 = Some p /\
     ph_left_fork p = 4 /\ ph_right_fork p = right_of 5 4).
Proof.
  destruct (@table_is_never_rewired 5 7 (table_config 5 7) 4
              (reach_refl _) ltac:(simpl; lia))
    as (H1 & (p & Hp & _ & H2 & H3 & _) & _).
  split; [exact H1|]. exists p. auto.
Defined.

(** ** Labels *)

Module LabelFacts.
Import Ascii String Labels.
Local Open Scope string_scope.

Example labels_of_the_table :
  List.map Fork_str (forks (table_world 5 7)) = ["F 0"; "F 1"; "F 2"; "F 3"; "F 4"] /\
  List.map Philosopher_str (List.firstn 2 (philosophers (table_world 5 7)))
  = ["P 0 ( 7)"; "P 1 ( 7)"] /\
  List.map format_2d [-10; -1; 9; 10; 100]%Z = ["-10"; "-1"; " 9"; "10"; "100"].
Proof. vm_compute. repeat split. Qed.

Lemma uint_str_numeric d :
  all_chars numeric (DecimalString.NilEmpty.string_of_uint d) = true.
Proof. induction d; cbn; try reflexivity; exact IHd. Qed.

Lemma int_str_shape z :
  exists c r, int_str z = String c r /\ numeric c = true /\ all_chars numeric r = true.
Proof.
  unfold int_str.
  assert (Hu : forall d, d <> Decimal.Nil ->
            exists c r, DecimalString.NilZero.string_of_uint d = String c r /\
              numeric c = true /\ all_chars numeric r = true).
  { intros d Hd. pose proof (uint_str_numeric d) as H.
    destruct d; try congruence; cbn in *; eexists; eexists;
      (split; [reflexivity|split; [reflexivity|exact H]]). }
  destruct z as [|p|p]; cbn.
  - exists "0"%char, "". repeat split.
  - apply Hu, DecimalPos.Unsigned.to_uint_nonnil.
  - destruct (Hu (Pos.to_uint p) (DecimalPos.Unsigned.to_uint_nonnil p))
      as (c & r & -> & Hc & Hr).
    exists "-"%char, (String c r).
    split; [reflexivity|]. split; [reflexivity|].
    cbn [all_chars]. by rewrite Hc, Hr.
Qed.

Lemma int_str_inj z1 z2 : int_str z1 = int_str z2 -> z1 = z2.
Proof.
  intros H. apply DecimalZ.to_int_inj.
  assert (Hi : forall z, DecimalString.NilZero.int_of_string (int_str z) = Some (Z.to_int z)).
  { intros z. apply DecimalString.NilZero.isi; destruct z; cbn; try discriminate;
      intros [= E]; by apply (DecimalPos.Unsigned.to_uint_nonnil p). }
  pose proof (Hi z1) as H1. rewrite H, Hi in H1. by injection H1.
Qed.

(** [format_2d]: a first character, then numeral characters only. *)
Lemma format_2d_shape z :
  exists c r,
    format_2d z = String c r /\ (c = " "%char \/ numeric c = true) /\
    r <> "" /\ all_chars numeric r = true /\
    length (format_2d z) = Nat.max 2 (length (int_str z)) /\
    (c = " "%char -> int_str z = r) /\ (numeric c = true -> int_str z = String c r).
Proof.
  destruct (int_str_shape z) as (c & r & Hs & Hc & Hr).
  unfold format_2d, rjust. rewrite Hs. destruct r as [|c' r'].
  - exists " "%char, (String c "").
    split; [reflexivity|]. split; [by left|]. split; [discriminate|].
    split; [cbn [all_chars]; by rewrite Hc|]. split; [reflexivity|].
    split; [reflexivity|]. intros H. discriminate H.
  - exists c, (String c' r').
    split; [reflexivity|]. split; [by right|]. split; [discriminate|].
    split; [exact Hr|]. split; [reflexivity|].
    split; [|reflexivity]. intros ->. discriminate Hc.
Qed.

Lemma format_2d_inj z1 z2 : format_2d z1 = format_2d z2 -> z1 = z2.
Proof.
  intros H. apply int_str_inj.
  destruct (format_2d_shape z1) as (c1 & r1 & E1 & [->|N1] & _ & _ & _ & S1 & T1),
           (format_2d_shape z2) as (c2 & r2 & E2 & [->|N2] & _ & _ & _ & S2 & T2);
    rewrite E1, E2 in H; inversion H; subst.
  - by rewrite S1, S2.
  - discriminate N2.
  - discriminate N1.
  - by rewrite T1, T2.
Qed.

(** Numerals followed by a character that is not numeric: the numeral is
    determined. *)
Lemma numeral_then_stop t r1 : forall r2 y1 y2,
  numeric t = false ->
  all_chars numeric r1 = true -> all_chars numeric r2 = true ->
  r1 ++ String t y1 = r2 ++ String t y2 -> r1 = r2 /\ y1 = y2.
Proof.
  induction r1 as [|c1 r1 IH]; intros [|c2 r2] y1 y2 Ht H1 H2 H; cbn in *.
  - by injection H as ->.
  - injection H as -> _. apply andb_prop in H2 as [H2 _]. congruence.
  - injection H as -> _. apply andb_prop in H1 as [H1 _]. congruence.
  - injection H as -> H. apply andb_prop in H1 as [_ H1], H2 as [_ H2].
    destruct (IH r2 y1 y2 Ht H1 H2 H) as [-> ->]. by split.
Qed.

Lemma format_2d_then_stop t z1 z2 y1 y2 :
  numeric t = false ->
  format_2d z1 ++ String t y1 = format_2d z2 ++ String t y2 ->
  z1 = z2 /\ y1 = y2.
Proof.
  intros Ht H.
  destruct (format_2d_shape z1) as (c1 & r1 & E1 & _ & _ & A1 & _),
           (format_2d_shape z2) as (c2 & r2 & E2 & _ & _ & A2 & _).
  pose proof H as H'. rewrite E1, E2 in H'. cbn in H'. injection H' as Hc Hr.
  destruct (@numeral_then_stop t r1 r2 y1 y2 Ht A1 A2 Hr) as [-> ->].
  split; [|reflexivity]. apply format_2d_inj. rewrite E1, E2. by subst.
Qed.

Lemma length_app_string s1 s2 : length (s1 ++ s2) = length s1 + length s2.
Proof. induction s1 as [|c s1 IH]; cbn; [reflexivity|by rewrite IH]. Qed.

Lemma small_int_str z : (-9 <= z <= 99)%Z -> length (int_str z) <= 2.
Proof.
  intros Hz.
  assert (Hall : List.forallb (fun k => Nat.leb (length (int_str (Z.of_nat k - 9))) 2)
                   (List.seq 0 109) = true) by (vm_compute; reflexivity).
  rewrite List.forallb_forall in Hall.
  specialize (Hall (Z.to_nat (z + 9))).
  replace (Z.of_nat (Z.to_nat (z + 9)) - 9)%Z with z in Hall by lia.
  apply Nat.leb_le, Hall, List.in_seq. lia.
Qed.

(** X11: the label of a fork, ["F"] and the index in a field of two
    characters, tells the forks apart: two forks with the same label have
    the same index.  The label has three characters for every index from
    -9 to 99 and never fewer. *)
Theorem fork_label_identifies_fork (f1 f2 : Fork) :
  (Fork_str f1 = Fork_str f2 -> fk_index f1 = fk_index f2) /\
  3 <= length (Fork_str f1) /\
  ((-9 <= fk_index f1 <= 99)%Z -> length (Fork_str f1) = 3).
Proof.
  unfold Fork_str. split; [|split].
  - cbn. intros [= H]. by apply format_2d_inj.
  - cbn. destruct (format_2d_shape (fk_index f1)) as (c & r & _ & _ & _ & _ & -> & _). lia.
  - intros Hr. cbn.
    destruct (format_2d_shape (fk_index f1)) as (c & r & _ & _ & _ & _ & -> & _).
    pose proof (small_int_str Hr). lia.
Qed.

Lemma fork_label_identifies_fork_witness :
  fk_index (Fork_init 3) = fk_index (fork_taken 1 (Fork_init 3)) /\
  length (Fork_str (Fork_init 3)) = 3.
Proof.
  destruct (fork_label_identifies_fork (Fork_init 3) (fork_taken 1 (Fork_init 3)))
    as (H1 & _ & H3).
  split; [apply H1; reflexivity|apply H3; cbn; lia].
Defined.

(** X12: the label of a philosopher shows its index and what is left of
    its budget, and both can be read back from it: two philosophers with
    the same label have the same index and the same [spaghetti].  With
    both numbers between -9 and 99 the label has eight characters. *)
Theorem philosopher_label_shows_state (p1 p2 : Philosopher) :
  (Philosopher_str p1 = Philosopher_str p2 ->
   ph_index p1 = ph_index p2 /\ ph_spaghetti p1 = ph_spaghetti p2) /\
  ((-9 <= ph_index p1 <= 99)%Z -> (-9 <= ph_spaghetti p1 <= 99)%Z ->
   length (Philosopher_str p1) = 8).
Proof.
  unfold Philosopher_str. split.
  - cbn. intros [= H].
    destruct (@format_2d_then_stop " "%char _ _ _ _ eq_refl H) as [Hi H'].
    injection H' as H'.
    destruct (@format_2d_then_stop ")"%char _ _ _ _ eq_refl H') as [Hs _].
    by split.
  - intros Hi Hs. cbn. rewrite length_app_string. cbn. rewrite length_app_string. cbn.
    destruct (format_2d_shape (ph_index p1)) as (c & r & _ & _ & _ & _ & -> & _).
    destruct (format_2d_shape (ph_spaghetti p1)) as (c' & r' & _ & _ & _ & _ & -> & _).
    pose proof (small_int_str Hi). pose proof (small_int_str Hs). lia.
Qed.

Lemma philosopher_label_shows_state_witness :
  ph_spaghetti (Philosopher_init 2 2 3 7 0) = ph_spaghetti (with_thread Running (Philosopher_init 2 2 3 7 0)) /\
  length (Philosopher_str (Philosopher_init 2 2 3 7 0)) = 8.
Proof.
  destruct (philosopher_label_shows_state (Philosopher_init 2 2 3 7 0)
              (with_thread Running (Philosopher_init 2 2 3 7 0))) as (H1 & H2).
  split; [apply H1; reflexivity|apply H2; cbn; lia].
Defined.

End LabelFacts.
